(** * Autoviva: question generation and exam assembly

    A shallow embedding of the teacher-side question pipeline and of the
    exam question picker:

    - [lib/api/gemini]       : [generateQuestionsFromText],
                               [generateQuestionsFromDocument];
    - [TopicGenerator.tsx]   : [handleGenerate];
    - [DocumentUploader.tsx] : [handleGenerateMCQs];
    - [QuestionSelection]    : the effect that recomputes the available
                               questions.

    The code is TypeScript; what runs is JavaScript, so the values that flow
    from [JSON.parse] into the store are modelled as untyped JavaScript
    values, and every property read that can throw does so in the model. *)

From Stdlib Require Import ZArith Ascii String List Lia.
From stdpp Require Import base option list gmap pretty.

Set Warnings "-register-all".
Local Open Scope Z_scope.

(** ** JavaScript values and the runtime operations the code relies on *)

Module JS.

(** A JavaScript string is a sequence of UTF-16 code units. *)
Definition jsstring := list N.

(** The code units of a literal written in the source. *)
Definition js (s : string) : jsstring :=
  map N_of_ascii (list_ascii_of_string s).

(** The double quote, and a literal between double quotes. *)
Definition dq : jsstring := [34%N].
Definition quoted (s : string) : jsstring := dq ++ js s ++ dq.
(** The line feed that ends a line of a template literal. *)
Definition nl : jsstring := [10%N].

(** Values. [VNum n] is the number [n] for an integer [n] that a double
    holds exactly; the code never computes with the numbers it receives, it
    stores them, and numbers with a fraction are left out. An object keeps
    its own properties in insertion order, each key once. *)
Inductive value : Type :=
  | VUndefined
  | VNull
  | VBool (b : bool)
  | VNum (n : Z)
  | VStr (s : jsstring)
  | VArr (items : list value)
  | VObj (fields : list (jsstring * value)).

(** What a [throw] carries: [Error msg] is [new Error(msg)] of the
    repository's code, [TypeError] and [SyntaxError] are raised by the
    runtime, [External] is a failure of a collaborator (the SDK, [fetch],
    the question store). *)
Inductive exn : Type :=
  | Error (message : jsstring)
  | TypeError
  | SyntaxError
  | External (reason : jsstring).

Inductive result (A : Type) : Type :=
  | Ok (a : A)
  | Throw (e : exn).
Arguments Ok {A} a.
Arguments Throw {A} e.

Definition bind {A B} (m : result A) (k : A -> result B) : result B :=
  match m with
  | Ok a => k a
  | Throw e => Throw e
  end.

(** [try { body } catch (error) { handler }] *)
Definition try_catch {A} (body : result A) (handler : exn -> result A)
  : result A :=
  match body with
  | Ok a => Ok a
  | Throw e => handler e
  end.

Definition is_ok {A} (m : result A) : bool :=
  match m with Ok _ => true | Throw _ => false end.

(** [ToBoolean]: the falsy values are [undefined], [null], [false], [0]
    and the empty string. *)
Definition truthy (v : value) : bool :=
  match v with
  | VUndefined | VNull => false
  | VBool b => b
  | VNum n => negb (n =? 0)
  | VStr s => match s with [] => false | _ => true end
  | VArr _ | VObj _ => true
  end.

(** The values whose properties cannot be read. *)
Definition nullish (v : value) : bool :=
  match v with
  | VUndefined | VNull => true
  | _ => false
  end.

(** [a || b] *)
Definition or_else (a b : value) : value := if truthy a then a else b.

(** [s === v] for a string [s]: only the same string is strictly equal. *)
Definition strict_eq_string (s : jsstring) (v : value) : bool :=
  match v with
  | VStr t => bool_decide (s = t)
  | _ => false
  end.

(** [String.fromCharCode(n)]: one code unit, [n] modulo 2^16. *)
Definition fromCharCode (n : Z) : jsstring := [Z.to_N (n mod 65536)].

Definition isArray (v : value) : bool :=
  match v with VArr _ => true | _ => false end.

(** Decimal rendering of an integer, as in a template literal. *)
Definition show_int (n : Z) : jsstring := js (pretty n).

Fixpoint join (sep : jsstring) (parts : list jsstring) : jsstring :=
  match parts with
  | [] => []
  | [p] => p
  | p :: rest => p ++ sep ++ join sep rest
  end.

(** [String(v)], which [JSON.parse] applies to its argument. An array is
    its elements joined by commas, [null] and [undefined] elements giving
    the empty string. *)
Fixpoint ToString (v : value) : jsstring :=
  match v with
  | VUndefined => js "undefined"
  | VNull => js "null"
  | VBool true => js "true"
  | VBool false => js "false"
  | VNum n => show_int n
  | VStr s => s
  | VArr items =>
      join (js ",")
        ((fix each (l : list value) : list jsstring :=
            match l with
            | [] => []
            | x :: r =>
                match x with
                | VUndefined | VNull => []
                | _ => ToString x
                end :: each r
            end) items)
  | VObj _ => js "[object Object]"
  end.

(** [JSON.parse(v)]: the argument is turned into a string and read by
    the runtime's JSON reader, which throws when the text is not JSON. *)
Definition JSON_parse (reader : jsstring -> option value) (v : value)
  : result value :=
  match reader (ToString v) with
  | Some parsed => Ok parsed
  | None => Throw SyntaxError
  end.

(** The properties the code reads. None of them is inherited from a
    prototype, so a read on a number or a boolean gives [undefined]. *)
Inductive prop : Type :=
  | p_text
  | p_options
  | p_correct_answer
  | p_difficulty
  | p_candidates
  | p_content
  | p_parts
  | p_length
  | p_index (i : nat).

Definition prop_name (p : prop) : jsstring :=
  match p with
  | p_text => js "text"
  | p_options => js "options"
  | p_correct_answer => js "correct_answer"
  | p_difficulty => js "difficulty"
  | p_candidates => js "candidates"
  | p_content => js "content"
  | p_parts => js "parts"
  | p_length => js "length"
  | p_index i => js (pretty i)
  end.

Fixpoint own (k : jsstring) (fields : list (jsstring * value)) : value :=
  match fields with
  | [] => VUndefined
  | (k', v) :: rest => if bool_decide (k = k') then v else own k rest
  end.

(** [v.p] and [v[i]]. Reading a property of [undefined] or [null] throws. *)
Definition get (v : value) (p : prop) : result value :=
  match v with
  | VUndefined | VNull => Throw TypeError
  | VBool _ | VNum _ => Ok VUndefined
  | VStr s =>
      match p with
      | p_length => Ok (VNum (Z.of_nat (length s)))
      | p_index i =>
          Ok (match s !! i with Some c => VStr [c] | None => VUndefined end)
      | _ => Ok VUndefined
      end
  | VArr items =>
      match p with
      | p_length => Ok (VNum (Z.of_nat (length items)))
      | p_index i => Ok (default VUndefined (items !! i))
      | _ => Ok VUndefined
      end
  | VObj fields => Ok (own (prop_name p) fields)
  end.

(** [items.findIndex(pred)]: the first index whose element satisfies
    [pred], or -1. *)
Fixpoint findIndex_from (pred : value -> nat -> bool) (items : list value)
    (idx : nat) : Z :=
  match items with
  | [] => -1
  | x :: rest =>
      if pred x idx then Z.of_nat idx else findIndex_from pred rest (S idx)
  end.

Definition findIndex (pred : value -> nat -> bool) (items : list value) : Z :=
  findIndex_from pred items 0.

(** [v.findIndex(pred)] on a value that came out of [JSON.parse]: only an
    array has the method. *)
Definition call_findIndex (v : value) (pred : value -> nat -> bool)
  : result value :=
  match v with
  | VArr items => Ok (VNum (findIndex pred items))
  | _ => Throw TypeError
  end.

(** White space and line terminators, the code units [trim] strips. *)
Definition is_space (c : N) : bool :=
  bool_decide (c ∈ [9; 10; 11; 12; 13; 32; 160; 5760; 8232; 8233; 8239;
                    8287; 12288; 65279]%N)
  || ((8192 <=? c) && (c <=? 8202))%N.

(** [!s.trim()]: nothing is left once the white space is stripped. *)
Definition trim_is_empty (s : jsstring) : bool := forallb is_space s.

(** [s.match(/\[[\s\S]*\]/)]: the leftmost match starts at the first '[',
    and the greedy star runs to the last ']' after it. *)
Definition open_bracket : N := 91%N.
Definition close_bracket : N := 93%N.

Fixpoint from_first_open (s : jsstring) : option jsstring :=
  match s with
  | [] => None
  | c :: rest =>
      if (c =? open_bracket)%N then Some rest else from_first_open rest
  end.

Fixpoint through_last_close (s : jsstring) : option jsstring :=
  match s with
  | [] => None
  | c :: rest =>
      match through_last_close rest with
      | Some m => Some (c :: m)
      | None => if (c =? close_bracket)%N then Some [c] else None
      end
  end.

Definition match_array (s : jsstring) : option jsstring :=
  match from_first_open s with
  | None => None
  | Some rest =>
      match through_last_close rest with
      | None => None
      | Some m => Some (open_bracket :: m)
      end
  end.

(** [s.trim()]: the white space at both ends is stripped. *)
Fixpoint trimStart (s : jsstring) : jsstring :=
  match s with
  | c :: rest => if is_space c then trimStart rest else s
  | [] => []
  end.

Fixpoint trimEnd (s : jsstring) : jsstring :=
  match s with
  | [] => []
  | c :: rest =>
      match trimEnd rest with
      | [] => if is_space c then [] else [c]
      | kept => c :: kept
      end
  end.

Definition trim (s : jsstring) : jsstring := trimEnd (trimStart s).

(** [s.replace(/\s+/g, ' ')]: each run of white space becomes one space.
    [in_run] tells that the code unit before was white space. *)
Definition space : N := 32%N.

Fixpoint replace_from (in_run : bool) (s : jsstring) : jsstring :=
  match s with
  | [] => []
  | c :: rest =>
      if is_space c then
        if in_run then replace_from true rest
        else space :: replace_from true rest
      else c :: replace_from false rest
  end.

Definition replace_spaces (s : jsstring) : jsstring := replace_from false s.

(** [s.includes(sub)]: [sub] occurs in [s] as a run of code units. *)
Fixpoint startsWith (sub s : jsstring) : bool :=
  match sub, s with
  | [], _ => true
  | _ :: _, [] => false
  | a :: sub', c :: s' => (a =? c)%N && startsWith sub' s'
  end.

Fixpoint includes (s sub : jsstring) : bool :=
  startsWith sub s
  || match s with
     | [] => false
     | _ :: rest => includes rest sub
     end.

End JS.

(** ** A reference JSON reader

    [JSON.parse] belongs to the runtime. The theorems below hold for any
    reader, which they take as a parameter; [Json.parse] is a reader for
    JSON texts whose numbers are integer literals, used to run the
    pipeline on concrete response texts. On a number with a fraction or an
    exponent it gives up. *)

Module Json.
Import JS.

Definition is_ws (c : N) : bool :=
  bool_decide (c ∈ [32; 9; 10; 13]%N).

Fixpoint skip_ws (s : jsstring) : jsstring :=
  match s with
  | c :: rest => if is_ws c then skip_ws rest else s
  | [] => []
  end.

Definition is_digit (c : N) : bool := ((48 <=? c) && (c <=? 57))%N.

Definition hex_digit (c : N) : option N :=
  if ((48 <=? c) && (c <=? 57))%N then Some (c - 48)%N
  else if ((97 <=? c) && (c <=? 102))%N then Some (c - 87)%N
  else if ((65 <=? c) && (c <=? 70))%N then Some (c - 55)%N
  else None.

(** The digits that follow, as a number, and the rest of the text. *)
Fixpoint digits (acc : Z) (s : jsstring) : Z * jsstring :=
  match s with
  | c :: rest =>
      if is_digit c then digits (10 * acc + Z.of_N (c - 48)) rest
      else (acc, s)
  | [] => (acc, [])
  end.

Definition starts_fraction (s : jsstring) : bool :=
  match s with
  | c :: _ => bool_decide (c ∈ [46; 101; 69]%N)
  | [] => false
  end.

(** An integer literal: 0, or a nonzero digit and more digits. *)
Definition unsigned (s : jsstring) : option (Z * jsstring) :=
  match s with
  | c :: rest =>
      if (c =? 48)%N then
        if starts_fraction rest then None else Some (0, rest)
      else if is_digit c then
        let '(n, rest') := digits (Z.of_N (c - 48)) rest in
        if starts_fraction rest' then None else Some (n, rest')
      else None
  | [] => None
  end.

Definition escape (c : N) : option N :=
  if (c =? 34)%N then Some 34%N
  else if (c =? 92)%N then Some 92%N
  else if (c =? 47)%N then Some 47%N
  else if (c =? 98)%N then Some 8%N
  else if (c =? 102)%N then Some 12%N
  else if (c =? 110)%N then Some 10%N
  else if (c =? 114)%N then Some 13%N
  else if (c =? 116)%N then Some 9%N
  else None.

(** The characters of a string literal after its opening quote. *)
Fixpoint string_body (s : jsstring) : option (jsstring * jsstring) :=
  match s with
  | [] => None
  | c :: rest =>
      if (c =? 34)%N then Some ([], rest)
      else if (c <? 32)%N then None
      else if (c =? 92)%N then
        match rest with
        | e :: rest1 =>
            if (e =? 117)%N then
              match rest1 with
              | a :: b :: c' :: d :: rest2 =>
                  match hex_digit a, hex_digit b, hex_digit c', hex_digit d with
                  | Some a, Some b, Some c', Some d =>
                      match string_body rest2 with
                      | Some (body, rest3) =>
                          Some ((4096 * a + 256 * b + 16 * c' + d)%N :: body,
                                rest3)
                      | None => None
                      end
                  | _, _, _, _ => None
                  end
              | _ => None
              end
            else
              match escape e, string_body rest1 with
              | Some u, Some (body, rest2) => Some (u :: body, rest2)
              | _, _ => None
              end
        | [] => None
        end
      else
        match string_body rest with
        | Some (body, rest1) => Some (c :: body, rest1)
        | None => None
        end
  end.

Fixpoint strip_prefix (word s : jsstring) : option jsstring :=
  match word, s with
  | [], _ => Some s
  | w :: word', c :: rest =>
      if (w =? c)%N then strip_prefix word' rest else None
  | _ :: _, [] => None
  end.

(** A key given twice keeps its place and takes the later value. *)
Fixpoint obj_set (k : jsstring) (v : value) (fields : list (jsstring * value))
  : list (jsstring * value) :=
  match fields with
  | [] => [(k, v)]
  | (k', v') :: rest =>
      if bool_decide (k = k') then (k', v) :: rest
      else (k', v') :: obj_set k v rest
  end.

Fixpoint parse_value (fuel : nat) (s : jsstring) {struct fuel}
  : option (value * jsstring) :=
  match fuel with
  | O => None
  | S fuel =>
      match skip_ws s with
      | [] => None
      | c :: rest =>
          if (c =? 91)%N then
            match skip_ws rest with
            | c1 :: rest1 =>
                if (c1 =? 93)%N then Some (VArr [], rest1)
                else parse_items fuel [] rest
            | [] => None
            end
          else if (c =? 123)%N then
            match skip_ws rest with
            | c1 :: rest1 =>
                if (c1 =? 125)%N then Some (VObj [], rest1)
                else parse_members fuel [] rest
            | [] => None
            end
          else if (c =? 34)%N then
            match string_body rest with
            | Some (body, rest1) => Some (VStr body, rest1)
            | None => None
            end
          else if (c =? 45)%N then
            match unsigned rest with
            | Some (n, rest1) => Some (VNum (- n), rest1)
            | None => None
            end
          else if is_digit c then
            match unsigned (c :: rest) with
            | Some (n, rest1) => Some (VNum n, rest1)
            | None => None
            end
          else
            match strip_prefix (js "true") (c :: rest) with
            | Some rest1 => Some (VBool true, rest1)
            | None =>
                match strip_prefix (js "false") (c :: rest) with
                | Some rest1 => Some (VBool false, rest1)
                | None =>
                    match strip_prefix (js "null") (c :: rest) with
                    | Some rest1 => Some (VNull, rest1)
                    | None => None
                    end
                end
            end
      end
  end
with parse_items (fuel : nat) (acc : list value) (s : jsstring) {struct fuel}
  : option (value * jsstring) :=
  match fuel with
  | O => None
  | S fuel =>
      match parse_value fuel s with
      | None => None
      | Some (v, rest) =>
          match skip_ws rest with
          | c :: rest1 =>
              if (c =? 44)%N then parse_items fuel (acc ++ [v]) rest1
              else if (c =? 93)%N then Some (VArr (acc ++ [v]), rest1)
              else None
          | [] => None
          end
      end
  end
with parse_members (fuel : nat) (acc : list (jsstring * value)) (s : jsstring)
    {struct fuel} : option (value * jsstring) :=
  match fuel with
  | O => None
  | S fuel =>
      match skip_ws s with
      | c :: rest =>
          if (c =? 34)%N then
            match string_body rest with
            | None => None
            | Some (k, rest1) =>
                match skip_ws rest1 with
                | c2 :: rest2 =>
                    if (c2 =? 58)%N then
                      match parse_value fuel rest2 with
                      | None => None
                      | Some (v, rest3) =>
                          match skip_ws rest3 with
                          | c4 :: rest4 =>
                              if (c4 =? 44)%N then
                                parse_members fuel (obj_set k v acc) rest4
                              else if (c4 =? 125)%N then
                                Some (VObj (obj_set k v acc), rest4)
                              else None
                          | [] => None
                          end
                      end
                    else None
                | [] => None
                end
            end
          else None
      | [] => None
      end
  end.

(** One value, white space around it, and nothing else. *)
Definition parse (s : jsstring) : option value :=
  match parse_value (2 * length s + 2) s with
  | Some (v, rest) =>
      match skip_ws rest with
      | [] => Some v
      | _ :: _ => None
      end
  | None => None
  end.

End Json.

(** ** Generated questions

    The shape the two prompts ask for, and the interfaces
    [GeneratedQuestion] and [Question] declare: a text, four options, an
    answer key that is an index from 0 to 3 or a letter from A to D, and a
    difficulty. Nothing checks it at run time. *)

Module GeneratedQuestion.
Import JS.

Definition is_string (v : value) : bool :=
  match v with VStr _ => true | _ => false end.

Definition well_formed (q : value) : bool :=
  match q with
  | VObj fields =>
      is_string (own (js "text") fields)
      && match own (js "options") fields with
         | VArr opts => (length opts =? 4)%nat && forallb is_string opts
         | _ => false
         end
      && match own (js "correct_answer") fields with
         | VNum n => (0 <=? n) && (n <=? 3)
         | VStr s => bool_decide (s ∈ [js "A"; js "B"; js "C"; js "D"])
         | _ => false
         end
      && match own (js "difficulty") fields with
         | VStr d => bool_decide (d ∈ [js "easy"; js "medium"; js "hard"])
         | _ => false
         end
  | _ => false
  end.

End GeneratedQuestion.

(** ** The question store ([store/questionStore])

    The store is a collaborator: the components only call [addQuestion].
    A call issues one insertion request; the store answers each request on
    its own, and an accepted request joins the pool. *)

Module Store.
Import JS.

(** The object literal handed to [addQuestion]. The first four fields hold
    whatever the response carried. *)
Record NewQuestion : Type := {
  text : value;
  options : value;
  correct_answer : value;
  difficulty : value;
  subject_id : jsstring;
  teacher_id : jsstring;
  marks : Z
}.

Record store : Type := {
  issued : list NewQuestion;
  pool : list NewQuestion
}.

(** Code that may throw and may call the store. What was issued before a
    throw stays issued. *)
Definition M (A : Type) : Type := store -> result A * store.

Definition ret {A} (a : A) : M A := fun s => (Ok a, s).

Definition throw {A} (e : exn) : M A := fun s => (Throw e, s).

Definition lift {A} (r : result A) : M A := fun s => (r, s).

Definition mbind {A B} (m : M A) (k : A -> M B) : M B :=
  fun s =>
    match m s with
    | (Ok a, s') => k a s'
    | (Throw e, s') => (Throw e, s')
    end.

Declare Scope store_scope.
Delimit Scope store_scope with store.
Notation "'let*' x ':=' m 'in' k" := (mbind m (fun x => k))
  (at level 10, x name, m at level 100, k at level 200) : store_scope.

Local Open Scope store_scope.

(** A settled promise: fulfilled, or rejected with a reason. *)
Definition promise : Type := result unit.

(** [items.map(f)], the calls made from left to right. *)
Fixpoint map_M {A B} (f : A -> M B) (items : list A) : M (list B) :=
  match items with
  | [] => ret []
  | x :: rest =>
      let* y := f x in
      let* ys := map_M f rest in
      ret (y :: ys)
  end.

(** [v.map(f)] on a value that came out of [JSON.parse]: only an array has
    the method. *)
Definition call_map {B} (v : value) (f : value -> M B) : M (list B) :=
  match v with
  | VArr items => map_M f items
  | _ => throw TypeError
  end.

(** [await Promise.all(promises)] rejects as soon as one promise does. *)
Fixpoint Promise_all (promises : list promise) : result unit :=
  match promises with
  | [] => Ok tt
  | Ok _ :: rest => Promise_all rest
  | Throw e :: _ => Throw e
  end.

Section AddQuestion.

(** The store's answer to an insertion request. *)
Variable insert : NewQuestion -> promise.

Definition addQuestion (q : NewQuestion) : M promise :=
  fun s =>
    (Ok (insert q),
     {| issued := issued s ++ [q];
        pool := if is_ok (insert q) then pool s ++ [q] else pool s |}).

End AddQuestion.

(** The shape of both [map] callbacks: build the request, hand it to the
    store. *)
Definition save (build : value -> result NewQuestion)
    (insert : NewQuestion -> promise) (q : value) : M promise :=
  let* request := lift (build q) in
  addQuestion insert request.

(** The store once the requests [rs] have been issued in turn. *)
Definition after (insert : NewQuestion -> promise) (s : store)
    (rs : list NewQuestion) : store :=
  {| issued := issued s ++ rs;
     pool := pool s ++ filter (fun r => is_ok (insert r)) rs |}.

(** The requests that [items.map(q => addQuestion(build(q)))] issues: one
    for each item in turn, up to the first item whose request cannot be
    built. *)
Fixpoint requests (build : value -> result NewQuestion) (items : list value)
  : list NewQuestion :=
  match items with
  | [] => []
  | q :: rest =>
      match build q with
      | Ok request => request :: requests build rest
      | Throw _ => []
      end
  end.

(** [user!.id]: the assertion is erased, so a missing user throws. *)
Definition user_id (user : option jsstring) : result jsstring :=
  match user with
  | Some id => Ok id
  | None => Throw TypeError
  end.

Inductive Toast : Type :=
  | toast_error (message : jsstring)
  | toast_success (message : jsstring).

End Store.

(** ** [lib/api/gemini] *)

Module Gemini.
Import JS.

Definition prompt (count : Z) (text : jsstring) : jsstring :=
  join nl [
    js "Generate " ++ show_int count
      ++ js " multiple choice questions from the following topic. ";
    js "      Format each question as a JSON object with properties:";
    js "      - text: the question text";
    js "      - options: array of 4 possible answers";
    js "      - correct_answer: index of correct answer (0-3)";
    js "      - difficulty: " ++ quoted "easy" ++ js ", " ++ quoted "medium"
      ++ js ", or " ++ quoted "hard";
    js "      ";
    js "      Topic: " ++ text;
    js "      ";
    js "      Return ONLY a JSON array of questions with no additional text.";
    js "      Example format:";
    js "      [";
    js "        {";
    js "          " ++ quoted "text" ++ js ": "
      ++ quoted "What is the capital of France?" ++ js ",";
    js "          " ++ quoted "options" ++ js ": [" ++ quoted "London"
      ++ js ", " ++ quoted "Paris" ++ js ", " ++ quoted "Berlin" ++ js ", "
      ++ quoted "Madrid" ++ js "],";
    js "          " ++ quoted "correct_answer" ++ js ": 1,";
    js "          " ++ quoted "difficulty" ++ js ": " ++ quoted "easy";
    js "        }";
    js "      ]"
  ].

Section Gemini.

(** The runtime's JSON reader. *)
Variable reader : jsstring -> option value.

(** The SDK: the text of the model's response to a prompt, or the
    exception raised on the way ([getGenerativeModel],
    [generateContent], [response.text()]). *)
Variable generateContent : jsstring -> result jsstring.

(** The inner [try]/[catch]: the response as it is, else the bracketed
    part of it. *)
Definition parseResponse (responseText : jsstring) : result value :=
  try_catch (JSON_parse reader (VStr responseText))
    (fun _ =>
       match match_array responseText with
       | Some jsonMatch => JSON_parse reader (VStr jsonMatch)
       | None => Throw (Error (js "Failed to parse generated questions"))
       end).

Definition generateQuestionsFromText (text : jsstring) (count : option Z)
  : result value :=
  let count := default 5 count in
  try_catch
    (bind (generateContent (prompt count text)) parseResponse)
    (fun _ => Throw (Error (js "Failed to generate questions"))).

Definition generateQuestionsFromDocument (documentText : jsstring)
    (count : option Z) : result value :=
  let count := default 5 count in
  generateQuestionsFromText documentText (Some count).

End Gemini.

End Gemini.

(** ** [pages/teacher/components/TopicGenerator.tsx] *)

Module TopicGenerator.
Import JS Store.
Local Open Scope store_scope.

(** What one click leaves behind: the toast shown, the error written to
    the console, the [generatedQuestions] state when it was set, whether
    [onQuestionsGenerated] was called, and the store. *)
Record outcome : Type := {
  toast : Toast;
  logged : option exn;
  generatedQuestions : option value;
  refreshed : bool;
  final : store
}.

Section TopicGenerator.

Variable reader : jsstring -> option value.
Variable generateContent : jsstring -> result jsstring.
Variable insert : NewQuestion -> promise.

(** The props and the stores the component reads. *)
Variable subjectId : jsstring.
Variable user : option jsstring.

(** The object literal of the callback of [questions.map]; its fields
    are evaluated in order. *)
Definition newQuestion (question : value) : result NewQuestion :=
  bind (get question p_text) (fun text =>
  bind (get question p_options) (fun options =>
  bind (get question p_correct_answer) (fun correct_answer =>
  bind (get question p_difficulty) (fun difficulty =>
  bind (user_id user) (fun teacher_id =>
  Ok {| text := text;
        options := options;
        correct_answer := correct_answer;
        difficulty := difficulty;
        subject_id := subjectId;
        teacher_id := teacher_id;
        marks := 1 |}))))).

(** The callback: build the request, then call the store. *)
Definition saveQuestion (question : value) : M promise :=
  let* request := lift (newQuestion question) in
  addQuestion insert request.

(** [await Promise.all(questions.map(...))] *)
Definition saveAll (questions : value) : M unit :=
  let* promises := call_map questions saveQuestion in
  lift (Promise_all promises).

Definition failed (e : exn) (generated : option value) (s : store)
  : outcome :=
  {| toast := toast_error (js "Failed to generate questions");
     logged := Some e;
     generatedQuestions := generated;
     refreshed := false;
     final := s |}.

Definition handleGenerate (topic : jsstring) (count : Z) (s : store)
  : outcome :=
  if trim_is_empty topic then
    {| toast := toast_error (js "Please enter a topic");
       logged := None;
       generatedQuestions := None;
       refreshed := false;
       final := s |}
  else
    match
      Gemini.generateQuestionsFromText reader generateContent topic
        (Some count)
    with
    | Throw e => failed e None s
    | Ok questions =>
        match saveAll questions s with
        | (Throw e, s') => failed e (Some questions) s'
        | (Ok _, s') =>
            {| toast := toast_success (js "Questions generated successfully!");
               logged := None;
               generatedQuestions := Some questions;
               refreshed := true;
               final := s' |}
        end
    end.

End TopicGenerator.

End TopicGenerator.

(** ** [pages/teacher/components/DocumentUploader.tsx] *)

Module DocumentUploader.
Import JS Store.
Local Open Scope store_scope.

(** What [fetch] resolves to. [ok] is true for a status from 200 to 299. *)
Record Response : Type := {
  status : Z;
  body : jsstring
}.

Definition ok (r : Response) : bool :=
  (200 <=? status r) && (status r <=? 299).

Definition endpoint (apiKey : jsstring) : jsstring :=
  js "https://generativelanguage.googleapis.com/v1beta/models/gemini-2.0-flash:generateContent?key="
    ++ apiKey.

Definition prompt (extractedText : jsstring) : jsstring :=
  join nl [
    js "Generate 5 multiple-choice questions (MCQs) based on the following text. Each question should have 4 options (A, B, C, D) and specify the correct answer. Return the response in JSON format:";
    js "                    [";
    js "                      {";
    js "                        " ++ quoted "text" ++ js ": "
      ++ quoted "Question text" ++ js ",";
    js "                        " ++ quoted "options" ++ js ": ["
      ++ quoted "Option A" ++ js ", " ++ quoted "Option B" ++ js ", "
      ++ quoted "Option C" ++ js ", " ++ quoted "Option D" ++ js "],";
    js "                        " ++ quoted "correct_answer" ++ js ": "
      ++ quoted "A" ++ js ",";
    js "                        " ++ quoted "difficulty" ++ js ": "
      ++ quoted "medium";
    js "                      }";
    js "                    ]";
    js "                    Text: " ++ extractedText
  ].

(** The object given to [JSON.stringify] for the request body. *)
Definition requestBody (extractedText : jsstring) : value :=
  VObj [
    (js "contents",
     VArr [VObj [(js "parts",
                  VArr [VObj [(js "text", VStr (prompt extractedText))]])]]);
    (js "generationConfig",
     VObj [(js "response_mime_type", VStr (js "application/json"))])
  ].

Record outcome : Type := {
  toast : Toast;
  logged : option exn;
  refreshed : bool;
  final : store
}.

Section DocumentUploader.

Variable reader : jsstring -> option value.

(** [fetch(url, { method: 'POST', headers, body })]: a response, or the
    rejection of the request. *)
Variable fetch : jsstring -> value -> result Response.
Variable insert : NewQuestion -> promise.

Variable subjectId : jsstring.
(** Whether the optional prop [onQuestionsGenerated] was given. *)
Variable onQuestionsGenerated : bool.
Variable user : option jsstring.
(** [import.meta.env.VITE_GEMINI_API_KEY] *)
Variable apiKey : option jsstring.

(** The Answer-Key Mapper:
    [q.options.findIndex((_opt, idx) =>
       String.fromCharCode(65 + idx) === q.correct_answer)].
    The predicate reads [q.correct_answer] at each index; [q.text] was
    read before, so that read does not throw. *)
Definition answerIndex (q : value) : result value :=
  bind (get q p_options) (fun options =>
    call_findIndex options (fun _opt idx =>
      match get q p_correct_answer with
      | Ok correct_answer =>
          strict_eq_string (fromCharCode (65 + Z.of_nat idx)) correct_answer
      | Throw _ => false
      end)).

Definition newQuestion (q : value) : result NewQuestion :=
  bind (get q p_text) (fun text =>
  bind (get q p_options) (fun options =>
  bind (answerIndex q) (fun correct_answer =>
  bind (get q p_difficulty) (fun difficulty =>
  bind (user_id user) (fun teacher_id =>
  Ok {| text := text;
        options := options;
        correct_answer := correct_answer;
        difficulty := or_else difficulty (VStr (js "medium"));
        subject_id := subjectId;
        teacher_id := teacher_id;
        marks := 1 |}))))).

Definition saveQuestion (q : value) : M promise :=
  let* request := lift (newQuestion q) in
  addQuestion insert request.

Definition saveAll (questions : value) : M unit :=
  let* promises := call_map questions saveQuestion in
  lift (Promise_all promises).

(** The statements of the [try] block up to the parsed question list. *)
Definition requestQuestions (extractedText : jsstring) : result value :=
  match apiKey with
  | None | Some [] =>
      Throw (Error (js "Gemini API key is missing. Ensure VITE_GEMINI_API_KEY is set in your environment."))
  | Some key =>
      bind (fetch (endpoint key) (requestBody extractedText))
        (fun response =>
      if negb (ok response) then
        Throw (Error (js "API request failed with status "
                        ++ show_int (status response) ++ js ": "
                        ++ body response))
      else
      bind (JSON_parse reader (VStr (body response))) (fun data =>
      bind (get data p_candidates) (fun candidates =>
      bind (if negb (truthy candidates) then Ok true
            else bind (get candidates p_length) (fun n =>
                   Ok (match n with VNum 0 => true | _ => false end)))
        (fun none =>
      if (none : bool) then
        Throw (Error (js "No candidates found in API response"))
      else
      bind (get candidates (p_index 0)) (fun candidate =>
      bind (get candidate p_content) (fun content =>
      bind (get content p_parts) (fun parts =>
      bind (get parts (p_index 0)) (fun part =>
      bind (get part p_text) (fun generatedContent =>
      if negb (truthy generatedContent) then
        Throw (Error (js "Generated content is empty or malformed"))
      else
      bind (try_catch (JSON_parse reader generatedContent)
              (fun _ =>
                 Throw (Error (js "Failed to parse generated content as JSON"))))
        (fun questions =>
      if negb (isArray questions)
         || match questions with VArr [] => true | _ => false end
      then
        Throw (Error (js "Generated content is not a valid array of questions"))
      else Ok questions))))))))))
  end.


Definition failed (e : exn) (s : store) : outcome :=
  {| toast := toast_error (js "Failed to generate MCQs");
     logged := Some e;
     refreshed := false;
     final := s |}.

Definition handleGenerateMCQs (extractedText : jsstring) (s : store)
  : outcome :=
  match extractedText with
  | [] =>
      {| toast := toast_error (js "No text extracted to generate questions");
         logged := None;
         refreshed := false;
         final := s |}
  | _ :: _ =>
      match requestQuestions extractedText with
      | Throw e => failed e s
      | Ok questions =>
          match saveAll questions s with
          | (Throw e, s') => failed e s'
          | (Ok _, s') =>
              {| toast :=
                   toast_success (js "MCQs generated and saved successfully!");
                 logged := None;
                 refreshed := onQuestionsGenerated;
                 final := s' |}
          end
      end
  end.

End DocumentUploader.

(** The file of a change event of the input: its MIME type and its size in
    bytes. *)
Record File : Type := {
  file_name : jsstring;
  file_type : jsstring;
  file_size : Z
}.

(** File size limit: 2MB *)
Definition MAX_FILE_SIZE : Z := 2 * 1024 * 1024.

(** What [handleFileChange] does with the event: nothing, a toast, or
    [setFile(selectedFile)] followed by [extractTextFromPDF(selectedFile)]. *)
Inductive FileChange : Type :=
  | Ignored
  | Refused (shown : Toast)
  | Selected (selectedFile : File).

(** [files] is [e.target.files]: [null], or the list of the files. *)
Definition handleFileChange (files : option (list File)) : FileChange :=
  match files with
  | Some (selectedFile :: _) =>
      if negb (bool_decide (file_type selectedFile = js "application/pdf"))
      then Refused (toast_error (js "Please upload a PDF file"))
      else if MAX_FILE_SIZE <? file_size selectedFile
      then Refused (toast_error (js "File size exceeds 2MB limit"))
      else Selected selectedFile
  | _ => Ignored
  end.

(** A page as pdf.js gives it: for each item of its text content the
    [str] of the item, [None] for an item that has none; or the rejection
    of [getPage] or [getTextContent]. *)
Definition Page : Type := result (list (option jsstring)).

(** [textContent.items.map(item => item.str).join(' ')
       .replace(/\s+/g, ' ').trim()];
    [join] writes nothing for a missing [str]. *)
Definition pageText (items : list (option jsstring)) : jsstring :=
  trim (replace_spaces (join (js " ") (map (default []) items))).

(** The loop over the pages, [fullText] being what was read so far. *)
Fixpoint readPages (pages : list Page) (fullText : jsstring)
  : result jsstring :=
  match pages with
  | [] => Ok fullText
  | page :: rest =>
      bind page (fun items =>
        readPages rest (fullText ++ pageText items ++ nl))
  end.

(** What [extractTextFromPDF] leaves: the [extractedText] state, the
    toast, and the error written to the console. *)
Record Extraction : Type := {
  extractedText : jsstring;
  shown : Toast;
  reported : option exn
}.

(** [pdf] is the document pdf.js opens from the file: its pages, or the
    rejection of [file.arrayBuffer()] or [getDocument]. *)
Definition extractTextFromPDF (pdf : result (list Page)) : Extraction :=
  match bind pdf (fun pages => readPages pages []) with
  | Ok fullText =>
      {| extractedText := fullText;
         shown := toast_success (js "Text extracted from PDF successfully");
         reported := None |}
  | Throw e =>
      {| extractedText := [];
         shown := toast_error (js "Failed to extract text from PDF");
         reported := Some e |}
  end.

End DocumentUploader.

(** ** [QuestionSelection]: the exam question picker *)

Module QuestionSelection.
Import JS.

(** Modelled from the spec: the [Question] type of [types/exam], which the
    component imports; its fields are those of a persisted question. *)
Record Question : Type := {
  id : jsstring;
  text : jsstring;
  options : list jsstring;
  correct_answer : Z;
  difficulty : jsstring;
  subject_id : jsstring;
  teacher_id : jsstring;
  marks : Z
}.

(** [new Set(selectedQuestions.map(q => q.id))] *)
Definition selectedIds (selectedQuestions : list Question) : gset jsstring :=
  list_to_set (map id selectedQuestions).

(** The effect run when [questions] or [selectedQuestions] change: the
    value it passes to [setAvailableQuestions]. *)
Definition availableQuestions (questions selectedQuestions : list Question)
  : list Question :=
  filter (fun q => id q ∉ selectedIds selectedQuestions) questions.

(** Modelled from the spec: the transitions of the parent component, whose
    handlers arrive as the props [onSelectQuestion], [onRemoveQuestion] and
    [onUpdateMarks]. A selected question goes to the end of the selection;
    a removal drops the entries with that id; a mark edit rewrites the
    marks of the entries with that id. *)
Definition select (question : Question) (selectedQuestions : list Question)
  : list Question :=
  selectedQuestions ++ [question].

Definition remove (questionId : jsstring) (selectedQuestions : list Question)
  : list Question :=
  filter (fun q => id q ≠ questionId) selectedQuestions.

Definition set_marks (m : Z) (q : Question) : Question :=
  {| id := id q; text := text q; options := options q;
     correct_answer := correct_answer q; difficulty := difficulty q;
     subject_id := subject_id q; teacher_id := teacher_id q; marks := m |}.

Definition updateMarks (questionId : jsstring) (m : Z)
    (selectedQuestions : list Question) : list Question :=
  map (fun q => if bool_decide (id q = questionId) then set_marks m q else q)
    selectedQuestions.

(** The selections the picker can be in: it starts empty, the button of an
    available question selects it, any id can be removed, any marks
    edited. *)
Inductive reachable (questions : list Question) : list Question -> Prop :=
  | reach_initial : reachable questions []
  | reach_select selected q :
      reachable questions selected ->
      q ∈ availableQuestions questions selected ->
      reachable questions (select q selected)
  | reach_remove selected questionId :
      reachable questions selected ->
      reachable questions (remove questionId selected)
  | reach_marks selected questionId m :
      reachable questions selected ->
      reachable questions (updateMarks questionId m selected).

(** The selection comes from the pool: each selected question has the id
    of a question of the pool. *)
Definition within (questions selected : list Question) : Prop :=
  forall q, q ∈ selected -> exists p, p ∈ questions /\ id p = id q.

Section Filter.

(** [String.prototype.toLowerCase], which belongs to the runtime. *)
Variable toLowerCase : jsstring -> jsstring.

(** The questions listed under the search box. *)
Definition filteredQuestions (availableQuestions : list Question)
    (searchQuery : jsstring) : list Question :=
  filter (fun q => includes (toLowerCase (text q)) (toLowerCase searchQuery))
    availableQuestions.

End Filter.

End QuestionSelection.

(** ** Sample inputs

    Concrete response texts and collaborators, to run the handlers. *)

Module Samples.
Import JS Store.

(** A string literal of JSON for the string [s]: quotes and backslashes
    escaped. *)
Fixpoint escaped (s : jsstring) : jsstring :=
  match s with
  | [] => []
  | c :: rest =>
      if bool_decide (c ∈ [34; 92]%N) then 92%N :: c :: escaped rest
      else c :: escaped rest
  end.

Definition literal (s : jsstring) : jsstring := dq ++ escaped s ++ dq.

(** One question object, with the given text for its answer key. *)
Definition question (label : string) (answer : jsstring) : jsstring :=
  js "{" ++ quoted "text" ++ js ":" ++ quoted label ++ js ","
    ++ quoted "options" ++ js ":[" ++ quoted "x" ++ js "," ++ quoted "y"
    ++ js "," ++ quoted "z" ++ js "," ++ quoted "w" ++ js "],"
    ++ quoted "correct_answer" ++ js ":" ++ answer ++ js ","
    ++ quoted "difficulty" ++ js ":" ++ quoted "easy" ++ js "}".

(** The same object without a difficulty. *)
Definition bare_question (label : string) (answer : jsstring) : jsstring :=
  js "{" ++ quoted "text" ++ js ":" ++ quoted label ++ js ","
    ++ quoted "options" ++ js ":[" ++ quoted "x" ++ js "," ++ quoted "y"
    ++ js "," ++ quoted "z" ++ js "," ++ quoted "w" ++ js "],"
    ++ quoted "correct_answer" ++ js ":" ++ answer ++ js "}".

(** Three well-formed questions with index answer keys, as the topic
    prompt asks for them. *)
Definition three_questions : jsstring :=
  js "[" ++ question "Q1" (js "0") ++ js "," ++ question "Q2" (js "2")
    ++ js ", " ++ question "Q3" (js "3") ++ js "]".

(** A response that announces its array. *)
Definition announced : jsstring :=
  js "Here are your questions:" ++ nl ++ three_questions.

(** A response whose prose has brackets of its own. *)
Definition bracketed_prose : jsstring :=
  js "Questions [draft]: " ++ three_questions.

(** An answer key that is an integer, but no index of an option. *)
Definition index_seven : jsstring :=
  js "[" ++ question "Q" (js "7") ++ js "]".

(** A response that is valid JSON and not an array. *)
Definition single_object : jsstring := question "Q1" (js "1").

(** Questions with letter answer keys, as the document prompt asks for
    them: a letter of an option, a letter of none, and no difficulty. *)
Definition lettered : jsstring :=
  js "[" ++ question "Q1" (quoted "C") ++ js ","
    ++ question "Q2" (quoted "E") ++ js ","
    ++ bare_question "Q3" (quoted "A") ++ js "]".

(** The body of a completion response that carries [generated]. *)
Definition completion (generated : jsstring) : jsstring :=
  js "{" ++ quoted "candidates" ++ js ":[{" ++ quoted "content" ++ js ":{"
    ++ quoted "parts" ++ js ":[{" ++ quoted "text" ++ js ":"
    ++ literal generated ++ js "}]}}]}".

(** The three questions as the reader gives them. *)
Definition three_items : list value :=
  match Json.parse three_questions with
  | Some (VArr items) => items
  | _ => []
  end.

(** The question of the scenario: key C over the options x, y, z, w. *)
Definition keyed (answer : value) : value :=
  VObj [(js "text", VStr (js "Q"));
        (js "options",
         VArr [VStr (js "x"); VStr (js "y"); VStr (js "z"); VStr (js "w")]);
        (js "correct_answer", answer)].

Definition answers (responseText : jsstring) : jsstring -> result jsstring :=
  fun _ => Ok responseText.

Definition responds (code : Z) (text : jsstring)
  : jsstring -> value -> result DocumentUploader.Response :=
  fun _ _ => Ok {| DocumentUploader.status := code;
                   DocumentUploader.body := text |}.

Definition accepts : NewQuestion -> promise := fun _ => Ok tt.

Definition empty : store := {| issued := []; pool := [] |}.

Definition subject : jsstring := js "subject-1".
Definition teacher : jsstring := js "teacher-1".
Definition key : jsstring := js "secret".

(** A pool for the picker, and a selection of one of its questions, the
    copy carrying other marks. *)
Definition entry (i label : string) (m : Z) : QuestionSelection.Question :=
  {| QuestionSelection.id := js i;
     QuestionSelection.text := js label;
     QuestionSelection.options := [js "x"; js "y"; js "z"; js "w"];
     QuestionSelection.correct_answer := 0;
     QuestionSelection.difficulty := js "easy";
     QuestionSelection.subject_id := subject;
     QuestionSelection.teacher_id := teacher;
     QuestionSelection.marks := m |}.

Definition bank : list QuestionSelection.Question :=
  [entry "q1" "Q1" 1; entry "q2" "Q2" 1; entry "q3" "Q3" 1].

Definition chosen : list QuestionSelection.Question := [entry "q2" "Q2" 5].

(** Lower case for the letters A to Z, the other code units kept: what
    [toLowerCase] does on ASCII text. *)
Definition lower (s : jsstring) : jsstring :=
  map (fun c => if ((65 <=? c) && (c <=? 90))%N then (c + 32)%N else c) s.

Definition pdf_file (bytes : Z) : DocumentUploader.File :=
  {| DocumentUploader.file_name := js "notes.pdf";
     DocumentUploader.file_type := js "application/pdf";
     DocumentUploader.file_size := bytes |}.

(** Two pages: the first with items that carry white space of their own,
    the second with no text. *)
Definition two_pages : list (list (option jsstring)) :=
  [[Some (js "  Cells  "); None; Some (js "have"); Some (nl ++ js "walls. ")];
   []].

(** The announcement on one line. *)
Definition announced_inline : jsstring :=
  js "Here are your questions: " ++ three_questions.

(** The body of a completion response with more in it: a second
    candidate, a finish reason, usage data. *)
Definition rich_completion (generated : jsstring) : jsstring :=
  js "{" ++ quoted "candidates" ++ js ":[{" ++ quoted "content" ++ js ":{"
    ++ quoted "parts" ++ js ":[{" ++ quoted "text" ++ js ":"
    ++ literal generated ++ js "}]," ++ quoted "role" ++ js ":"
    ++ quoted "model" ++ js "}," ++ quoted "finishReason" ++ js ":"
    ++ quoted "STOP" ++ js "},{" ++ quoted "content" ++ js ":null}],"
    ++ quoted "usageMetadata" ++ js ":{" ++ quoted "totalTokenCount"
    ++ js ":42}}".

(** A store that turns down the question [Q2]. *)
Definition picky : NewQuestion -> promise :=
  fun r =>
    match text r with
    | VStr t => if bool_decide (t = js "Q2")
                then Throw (External (js "insert failed")) else Ok tt
    | _ => Ok tt
    end.

(** The items of a response that is an array. *)
Definition items_of (responseText : jsstring) : list value :=
  match Json.parse responseText with
  | Some (VArr items) => items
  | _ => []
  end.

(** A response with a [null] between two questions. *)
Definition with_null : jsstring :=
  js "[" ++ question "Q1" (js "0") ++ js ",null,"
    ++ question "Q3" (js "3") ++ js "]".

(** A question whose options are not an array. *)
Definition no_options : jsstring :=
  js "[" ++ question "Q1" (quoted "A") ++ js ",{" ++ quoted "text" ++ js ":"
    ++ quoted "Q2" ++ js "," ++ quoted "correct_answer" ++ js ":"
    ++ quoted "A" ++ js "}]".

End Samples.

(** * Properties *)

(** ** The store monad *)

Module StoreFacts.
Import JS Store.
Local Open Scope store_scope.

Section Saving.

Variable build : value -> result NewQuestion.
Variable insert : NewQuestion -> promise.

Lemma after_nil s : after insert s [] = s.
Proof. destruct s; unfold after; simpl. by rewrite !app_nil_r. Qed.

Lemma after_cons s r rs :
  after insert (snd (addQuestion insert r s)) rs = after insert s (r :: rs).
Proof.
  unfold after, addQuestion; simpl.
  rewrite filter_cons. destruct (insert r); simpl;
    by rewrite <- ?app_assoc.
Qed.

(** Mapping the callback over the items leaves the store with the
    requests of [requests] issued, whether or not an item throws. *)
Lemma map_M_store items s :
  snd (map_M (save build insert) items s)
  = after insert s (requests build items).
Proof.
  revert s. induction items as [|q items IH]; intros s; simpl.
  - by rewrite after_nil.
  - unfold mbind at 1. unfold save at 1. unfold mbind at 1, lift at 1.
    destruct (build q) as [r|e]; simpl.
    + unfold mbind. specialize (IH (snd (addQuestion insert r s))).
      simpl in IH.
      destruct (map_M (save build insert) items _) as [[ps|e'] s'] eqn:E;
        simpl in *; rewrite IH; apply (after_cons s r).
    + by rewrite after_nil.
Qed.

Lemma requests_lookup items i r :
  requests build items !! i = Some r ->
  exists q, items !! i = Some q /\ build q = Ok r.
Proof.
  revert i. induction items as [|q items IH]; intros i; simpl; [done|].
  destruct (build q) as [r'|e] eqn:E; [|done].
  destruct i as [|i]; simpl.
  - intros [= ->]. eauto.
  - apply IH.
Qed.

Lemma requests_all items :
  Forall (fun q => is_ok (build q)) items ->
  Forall2 (fun q r => build q = Ok r) items (requests build items).
Proof.
  induction 1 as [|q items Hq _ IH]; simpl; [constructor|].
  destruct (build q) as [r|e] eqn:E; [|done].
  by constructor.
Qed.

Lemma map_M_ok items s :
  Forall (fun q => is_ok (build q)) items ->
  fst (map_M (save build insert) items s)
  = Ok (map insert (requests build items)).
Proof.
  intros H. revert s.
  induction H as [|q items Hq _ IH]; intros s; simpl; [done|].
  unfold mbind at 1. unfold save at 1. unfold mbind at 1, lift at 1.
  destruct (build q) as [r|e] eqn:E; [|done]. simpl.
  unfold mbind. specialize (IH (snd (addQuestion insert r s))).
  simpl in IH.
  destruct (map_M (save build insert) items _) as [[ps|e'] s']; simpl in *;
    congruence.
Qed.

(** [await Promise.all(items.map(save))]: the store after it, and its
    success when every request is built and accepted. *)
Lemma save_all_store items s :
  snd (mbind (call_map (VArr items) (save build insert))
         (fun promises => lift (Promise_all promises)) s)
  = after insert s (requests build items).
Proof.
  unfold call_map, mbind. rewrite <- map_M_store.
  by destruct (map_M _ items s) as [[ps|e] s'].
Qed.

Lemma Promise_all_accepted rs :
  Forall (fun r => is_ok (insert r)) rs ->
  Promise_all (map insert rs) = Ok tt.
Proof.
  induction 1 as [|r rs Hr _ IH]; simpl; [done|].
  by destruct (insert r) as [[]|].
Qed.

Lemma save_all_ok items s :
  Forall (fun q => is_ok (build q)) items ->
  Forall (fun r => is_ok (insert r)) (requests build items) ->
  fst (mbind (call_map (VArr items) (save build insert))
         (fun promises => lift (Promise_all promises)) s)
  = Ok tt.
Proof.
  intros Hbuilt Haccepted. unfold call_map, mbind.
  pose proof (map_M_ok items s Hbuilt) as Hps.
  destruct (map_M _ items s) as [[ps|e] s']; simpl in *; [|done].
  injection Hps as ->. by apply Promise_all_accepted.
Qed.

Lemma filter_accepted rs :
  Forall (fun r => is_ok (insert r)) rs ->
  filter (fun r => is_ok (insert r)) rs = rs.
Proof.
  induction 1 as [|r rs Hr _ IH]; [done|].
  rewrite filter_cons. destruct (decide _); [by rewrite IH|done].
Qed.

End Saving.

End StoreFacts.

(** ** The response normalizer of [lib/api/gemini] *)

Module GeminiFacts.
Import JS Gemini.

Lemma from_first_open_app (pre rest : jsstring) :
  open_bracket ∉ pre ->
  from_first_open (pre ++ open_bracket :: rest) = Some rest.
Proof.
  induction pre as [|c pre IH]; intros Hpre; simpl; [done|].
  apply not_elem_of_cons in Hpre as [Hc Hpre].
  destruct (N.eqb_spec c open_bracket); [congruence|]. by apply IH.
Qed.

Lemma through_last_close_none (post : jsstring) :
  close_bracket ∉ post -> through_last_close post = None.
Proof.
  induction post as [|c post IH]; intros Hpost; simpl; [done|].
  apply not_elem_of_cons in Hpost as [Hc Hpost].
  rewrite IH by done.
  destruct (N.eqb_spec c close_bracket); [congruence|done].
Qed.

Lemma through_last_close_app (mid post : jsstring) :
  close_bracket ∉ post ->
  through_last_close (mid ++ close_bracket :: post)
  = Some (mid ++ [close_bracket]).
Proof.
  intros Hpost. induction mid as [|c mid IH]; simpl.
  - by rewrite through_last_close_none.
  - by rewrite IH.
Qed.

(** The match on a bracketed span between prose with no bracket of the
    kind that would move its ends. *)
Lemma match_array_wrapped (pre mid post : jsstring) :
  open_bracket ∉ pre -> close_bracket ∉ post ->
  match_array (pre ++ (open_bracket :: mid ++ [close_bracket]) ++ post)
  = Some (open_bracket :: mid ++ [close_bracket]).
Proof.
  intros Hpre Hpost. unfold match_array. simpl.
  rewrite from_first_open_app by done.
  rewrite <- app_assoc. simpl. by rewrite through_last_close_app.
Qed.

Lemma from_first_open_inv (s rest : jsstring) :
  from_first_open s = Some rest ->
  exists pre, s = pre ++ open_bracket :: rest /\ open_bracket ∉ pre.
Proof.
  revert rest. induction s as [|c s IH]; intros rest; simpl; [done|].
  destruct (N.eqb_spec c open_bracket) as [->|Hc].
  - intros [= ->]. exists []. split; [done|]. apply not_elem_of_nil.
  - intros H. destruct (IH _ H) as (pre & -> & Hpre).
    exists (c :: pre). split; [done|].
    apply not_elem_of_cons. by split.
Qed.

Lemma through_last_close_inv (s m : jsstring) :
  through_last_close s = Some m ->
  exists mid post,
    s = m ++ post /\ m = mid ++ [close_bracket] /\ close_bracket ∉ post.
Proof.
  revert m. induction s as [|c s IH]; intros m; simpl; [done|].
  destruct (through_last_close s) as [m'|] eqn:E.
  - intros [= <-]. destruct (IH _ eq_refl) as (mid & post & -> & -> & Hpost).
    exists (c :: mid), post. by repeat split.
  - destruct (N.eqb_spec c close_bracket) as [->|Hc]; [|done].
    intros [= <-]. exists [], s. repeat split.
    clear IH. induction s as [|d s IHs]; [apply not_elem_of_nil|].
    simpl in E. destruct (through_last_close s); [done|].
    destruct (N.eqb_spec d close_bracket); [done|].
    apply not_elem_of_cons. split; [congruence|by apply IHs].
Qed.

(** The match, when there is one, runs from the first '[' of the text to
    its last ']'. *)
Lemma match_array_inv (s m : jsstring) :
  match_array s = Some m ->
  exists pre mid post,
    s = pre ++ m ++ post
    /\ m = open_bracket :: mid ++ [close_bracket]
    /\ (open_bracket ∉ pre) /\ (close_bracket ∉ post).
Proof.
  unfold match_array.
  destruct (from_first_open s) as [rest|] eqn:E1; [|done].
  destruct (through_last_close rest) as [m'|] eqn:E2; [|done].
  intros [= <-].
  destruct (from_first_open_inv _ _ E1) as (pre & -> & Hpre).
  destruct (through_last_close_inv _ _ E2) as (mid & post & -> & -> & Hpost).
  exists pre, mid, post. by repeat split.
Qed.

Section Normalizer.

Variable reader : jsstring -> option value.
Variable generateContent : jsstring -> result jsstring.

Lemma parseResponse_direct responseText v :
  reader responseText = Some v -> parseResponse reader responseText = Ok v.
Proof. intros H. unfold parseResponse, JSON_parse; simpl. by rewrite H. Qed.

Lemma parseResponse_fallback responseText :
  reader responseText = None ->
  parseResponse reader responseText
  = match match_array responseText with
    | Some jsonMatch => JSON_parse reader (VStr jsonMatch)
    | None => Throw (Error (js "Failed to parse generated questions"))
    end.
Proof. intros H. unfold parseResponse, JSON_parse at 1; simpl. by rewrite H. Qed.

(** Whatever goes wrong inside, the caller sees one error. *)
Lemma generateQuestionsFromText_throws text count e :
  generateQuestionsFromText reader generateContent text count = Throw e ->
  e = Error (js "Failed to generate questions").
Proof.
  unfold generateQuestionsFromText, try_catch.
  destruct (bind _ _); [done|]. by intros [= <-].
Qed.

Lemma generateQuestionsFromText_response text count responseText :
  generateContent (prompt (default 5 count) text) = Ok responseText ->
  generateQuestionsFromText reader generateContent text count
  = try_catch (parseResponse reader responseText)
      (fun _ => Throw (Error (js "Failed to generate questions"))).
Proof. intros H. unfold generateQuestionsFromText. by rewrite H. Qed.

(** The text path hands back whatever the reader makes of the response,
    array or not. *)
Lemma generateQuestionsFromText_any_value text count responseText v :
  generateContent (prompt (default 5 count) text) = Ok responseText ->
  reader responseText = Some v ->
  generateQuestionsFromText reader generateContent text count = Ok v.
Proof.
  intros Hgen Hv. rewrite (generateQuestionsFromText_response _ _ _ Hgen).
  by rewrite (parseResponse_direct _ _ Hv).
Qed.

(** C2 (amended): the normalizer parses the response as it is; when that
    fails it parses the span from the first '[' to the last ']'; when the
    response wraps an array in prose that has no '[' before the array and
    no ']' after it, that span is the array, and the result is what
    parsing the array alone gives; when both attempts fail the operation
    fails with an error. *)
Theorem C2_fallback_recovers_bracket_free_wrapping
    text count responseText :
  generateContent (prompt (default 5 count) text) = Ok responseText ->
  let outcome := generateQuestionsFromText reader generateContent text count in
  (forall v, reader responseText = Some v -> outcome = Ok v)
  /\ (reader responseText = None ->
      (forall m, match_array responseText = Some m ->
         (exists pre mid post,
            responseText = pre ++ m ++ post
            /\ m = open_bracket :: mid ++ [close_bracket]
            /\ (open_bracket ∉ pre) /\ (close_bracket ∉ post))
         /\ forall v, reader m = Some v -> outcome = Ok v)
      /\ (forall pre mid post v,
            responseText
            = pre ++ (open_bracket :: mid ++ [close_bracket]) ++ post ->
            open_bracket ∉ pre -> close_bracket ∉ post ->
            reader (open_bracket :: mid ++ [close_bracket]) = Some v ->
            outcome = Ok v)
      /\ ((forall m, match_array responseText = Some m -> reader m = None) ->
          outcome = Throw (Error (js "Failed to generate questions")))).
Proof.
  intros Hgen outcome. subst outcome.
  rewrite (generateQuestionsFromText_response _ _ _ Hgen).
  split.
  { intros v Hv. by rewrite (parseResponse_direct _ _ Hv). }
  intros Hdirect. rewrite (parseResponse_fallback _ Hdirect).
  split; [|split].
  - intros m Hm. split; [by apply match_array_inv|].
    intros v Hv. rewrite Hm. unfold JSON_parse; simpl. by rewrite Hv.
  - intros pre mid post v -> Hpre Hpost Hv.
    rewrite match_array_wrapped by done.
    unfold JSON_parse; simpl. by rewrite Hv.
  - intros Hnone. destruct (match_array responseText) as [m|] eqn:Hm.
    + unfold JSON_parse; simpl. by rewrite (Hnone m eq_refl).
    + done.
Qed.

(** C9: the document entry point returns what the text entry point
    returns on the same arguments, the count given or left out. *)
Theorem C9_document_path_delegates documentText count :
  generateQuestionsFromDocument reader generateContent documentText count
  = generateQuestionsFromText reader generateContent documentText count.
Proof.
  unfold generateQuestionsFromDocument, generateQuestionsFromText.
  by destruct count.
Qed.

End Normalizer.

(** C2, witness: the announced array of the samples. *)
Lemma C2_fallback_recovers_announced_array :
  exists items,
    Json.parse Samples.three_questions = Some (VArr items)
    /\ generateQuestionsFromText Json.parse (Samples.answers Samples.announced)
         (js "Photosynthesis") (Some 3)
       = Ok (VArr items).
Proof.
  destruct (Json.parse Samples.three_questions) as [v|] eqn:E;
    [|by vm_compute in E].
  destruct v as [| | | | |items|]; try by vm_compute in E.
  exists items. split; [done|].
  pose proof (C2_fallback_recovers_bracket_free_wrapping Json.parse
    (Samples.answers Samples.announced) (js "Photosynthesis") (Some 3)
    Samples.announced eq_refl) as [_ H].
  destruct (H ltac:(by vm_compute)) as (_ & Hwrap & _).
  apply (Hwrap (js "Here are your questions:" ++ nl)
           (removelast (tail Samples.three_questions)) []).
  - by vm_compute.
  - apply (bool_decide_unpack _). by vm_compute.
  - apply not_elem_of_nil.
  - rewrite <- E. by vm_compute.
Defined.

(** C2, as stated, fails: prose with brackets of its own around a valid
    array, and the operation fails instead of returning the array. *)
Lemma C2_bracketed_prose_is_not_recovered :
  exists items,
    Json.parse Samples.three_questions = Some (VArr items)
    /\ Samples.bracketed_prose
       = js "Questions [draft]: " ++ Samples.three_questions
    /\ generateQuestionsFromText Json.parse
         (Samples.answers Samples.bracketed_prose)
         (js "Photosynthesis") (Some 3)
       = Throw (Error (js "Failed to generate questions")).
Proof.
  destruct (Json.parse Samples.three_questions) as [v|] eqn:E;
    [|by vm_compute in E].
  destruct v as [| | | | |items|]; try by vm_compute in E.
  exists items. split; [done|]. split; [done|]. by vm_compute.
Qed.

(** C6: on the text path a response that parses to an object is returned
    as the question list. *)
Lemma C6_text_path_returns_a_non_array :
  exists fields,
    generateQuestionsFromText Json.parse
      (Samples.answers Samples.single_object) (js "Photosynthesis") (Some 1)
    = Ok (VObj fields).
Proof. eexists. by vm_compute. Qed.

End GeminiFacts.

(** ** The topic path: [TopicGenerator.handleGenerate] *)

Module TopicGeneratorFacts.
Import JS Store TopicGenerator.
Local Open Scope store_scope.

Lemma get_not_nullish (q : value) (p : prop) :
  nullish q = false -> exists v, get q p = Ok v.
Proof. destruct q; try done; destruct p; simpl; eauto. Qed.

Section Handler.

Variable reader : jsstring -> option value.
Variable generateContent : jsstring -> result jsstring.
Variable insert : NewQuestion -> promise.
Variable subjectId : jsstring.
Variable user : option jsstring.

Lemma topic_saveAll_store items s :
  snd (saveAll insert subjectId user (VArr items) s)
  = after insert s (requests (newQuestion subjectId user) items).
Proof. apply StoreFacts.save_all_store. Qed.

Lemma topic_saveAll_ok items s :
  Forall (fun q => is_ok (newQuestion subjectId user q)) items ->
  Forall (fun r => is_ok (insert r))
    (requests (newQuestion subjectId user) items) ->
  fst (saveAll insert subjectId user (VArr items) s) = Ok tt.
Proof. apply StoreFacts.save_all_ok. Qed.

(** Where a click that reached the store leaves it. *)
Lemma handleGenerate_final topic count s items :
  trim_is_empty topic = false ->
  Gemini.generateQuestionsFromText reader generateContent topic (Some count)
  = Ok (VArr items) ->
  final (handleGenerate reader generateContent insert subjectId user
           topic count s)
  = after insert s (requests (newQuestion subjectId user) items).
Proof.
  intros Htopic Hgen. unfold handleGenerate. rewrite Htopic, Hgen.
  rewrite <- topic_saveAll_store.
  by destruct (saveAll _ _ _ _ s) as [[[]|e] s'].
Qed.

(** A failed generation leaves the store as it was. *)
Lemma handleGenerate_generation_failed topic count s e :
  Gemini.generateQuestionsFromText reader generateContent topic (Some count)
  = Throw e ->
  final (handleGenerate reader generateContent insert subjectId user
           topic count s) = s.
Proof.
  intros Hgen. unfold handleGenerate.
  destruct (trim_is_empty topic); [done|]. by rewrite Hgen.
Qed.

(** What the object literal copies from the question. *)
Lemma topic_newQuestion_fields q r :
  newQuestion subjectId user q = Ok r ->
  get q p_text = Ok (text r)
  /\ get q p_options = Ok (options r)
  /\ get q p_correct_answer = Ok (correct_answer r)
  /\ get q p_difficulty = Ok (difficulty r)
  /\ subject_id r = subjectId
  /\ user = Some (teacher_id r)
  /\ marks r = 1.
Proof.
  unfold newQuestion, bind, user_id.
  destruct (get q p_text); [|done].
  destruct (get q p_options); [|done].
  destruct (get q p_correct_answer); [|done].
  destruct (get q p_difficulty); [|done].
  destruct user; [|done].
  by intros [= <-].
Qed.

Lemma topic_newQuestion_ok uid q :
  user = Some uid -> nullish q = false ->
  is_ok (newQuestion subjectId user q).
Proof.
  intros -> Hq. unfold newQuestion, bind; simpl.
  destruct (get_not_nullish q p_text Hq) as [? ->].
  destruct (get_not_nullish q p_options Hq) as [? ->].
  destruct (get_not_nullish q p_correct_answer Hq) as [? ->].
  by destruct (get_not_nullish q p_difficulty Hq) as [? ->].
Qed.

(** C1 (amended): on the topic path the answer key of a question is
    copied as it is into its insertion request; an index from 0 to 3 is
    used directly, and so is any other value, no range check being made.
    Every request issued is the request of the question at its position,
    and with a user signed in and no null among the questions each
    question has its request. *)
Theorem C1_topic_answer_key_is_copied_unchecked topic count s items :
  trim_is_empty topic = false ->
  Gemini.generateQuestionsFromText reader generateContent topic (Some count)
  = Ok (VArr items) ->
  exists rs,
    issued (final (handleGenerate reader generateContent insert subjectId
                     user topic count s))
    = issued s ++ rs
    /\ (forall i r, rs !! i = Some r ->
          exists q, items !! i = Some q
                    /\ get q p_correct_answer = Ok (correct_answer r))
    /\ (forall uid, user = Some uid ->
          Forall (fun q => nullish q = false) items ->
          Forall2 (fun q r => get q p_correct_answer = Ok (correct_answer r))
            items rs).
Proof.
  intros Htopic Hgen.
  exists (requests (newQuestion subjectId user) items).
  rewrite (handleGenerate_final _ _ _ _ Htopic Hgen). split; [done|]. split.
  - intros i r Hr.
    apply StoreFacts.requests_lookup in Hr as (q & Hq & Hbuilt).
    exists q. split; [done|].
    by apply topic_newQuestion_fields in Hbuilt as (_ & _ & ? & _).
  - intros uid Huser Hitems. eapply Forall2_impl.
    + apply StoreFacts.requests_all.
      eapply Forall_impl; [exact Hitems|].
      intros q Hq. by apply (topic_newQuestion_ok uid).
    + intros q r Hr.
      by apply topic_newQuestion_fields in Hr as (_ & _ & ? & _).
Qed.

End Handler.

(** C1, witness: the three sample questions, keys 0, 2 and 3. *)
Lemma C1_sample_keys_are_copied :
  exists rs,
    issued (final (handleGenerate Json.parse
                     (Samples.answers Samples.three_questions) Samples.accepts
                     Samples.subject (Some Samples.teacher)
                     (js "Photosynthesis") 3 Samples.empty))
    = issued Samples.empty ++ rs
    /\ map correct_answer rs = [VNum 0; VNum 2; VNum 3].
Proof.
  pose proof (C1_topic_answer_key_is_copied_unchecked Json.parse
                (Samples.answers Samples.three_questions) Samples.accepts
                Samples.subject (Some Samples.teacher)
                (js "Photosynthesis") 3 Samples.empty) as H.
  edestruct H as (rs & Hissued & _ & _).
  - by vm_compute.
  - vm_compute. reflexivity.
  - exists rs. split; [done|].
    vm_compute in Hissued. by subst rs.
Defined.

(** C1, as stated, fails: the key 7 of the sample reaches the store. *)
Lemma C1_index_seven_is_persisted :
  exists items r,
    Json.parse Samples.index_seven = Some (VArr items)
    /\ Forall (fun q => get q p_correct_answer = Ok (VNum 7)) items
    /\ issued (final (handleGenerate Json.parse
                        (Samples.answers Samples.index_seven) Samples.accepts
                        Samples.subject (Some Samples.teacher)
                        (js "Photosynthesis") 1 Samples.empty))
       = [r]
    /\ correct_answer r = VNum 7
    /\ ~ (0 <= 7 <= 3).
Proof.
  do 2 eexists. split; [by vm_compute|]. split.
  { by repeat constructor. }
  split; [by vm_compute|]. split; [done|lia].
Qed.

End TopicGeneratorFacts.

(** ** The document path: [DocumentUploader.handleGenerateMCQs] *)

Module DocumentUploaderFacts.
Import JS Store DocumentUploader.
Local Open Scope store_scope.

Lemma strict_eq_string_true (s : jsstring) (v : value) :
  strict_eq_string s v = true <-> v = VStr s.
Proof.
  destruct v; simpl; try (split; [done|congruence]).
  rewrite bool_decide_eq_true. split; congruence.
Qed.

(** No index satisfies the predicate: [findIndex] answers -1. *)
Lemma findIndex_from_none (p : nat -> bool) (items : list value) (start : nat) :
  (forall j, (j < length items)%nat -> p (start + j)%nat = false) ->
  findIndex_from (fun _ idx => p idx) items start = -1.
Proof.
  revert start. induction items as [|x items IH]; intros start Hp; simpl;
    [done|].
  pose proof (Hp 0%nat ltac:(simpl; lia)) as H0.
  rewrite Nat.add_0_r in H0. rewrite H0. apply IH.
  intros j Hj. replace (S start + j)%nat with (start + S j)%nat by lia.
  apply Hp. simpl. lia.
Qed.

Lemma answerIndex_eq (q : value) (opts : list value) (key : value) :
  get q p_options = Ok (VArr opts) ->
  get q p_correct_answer = Ok key ->
  answerIndex q
  = Ok (VNum (findIndex
                (fun _ idx =>
                   strict_eq_string (fromCharCode (65 + Z.of_nat idx)) key)
                opts)).
Proof. intros Hopts Hkey. unfold answerIndex. by rewrite Hopts, Hkey. Qed.

Lemma well_formed_inv (q : value) :
  GeneratedQuestion.well_formed q = true ->
  exists fields opts,
    q = VObj fields /\ own (js "options") fields = VArr opts
    /\ length opts = 4%nat.
Proof.
  destruct q as [| | | | | |fields]; try done. simpl.
  rewrite !andb_true_iff. intros [[[_ Hopts] _] _].
  destruct (own (js "options") fields) as [| | | | |opts|] eqn:E; try done.
  apply andb_true_iff in Hopts as [Hlen _].
  exists fields, opts. split; [done|]. split; [done|]. by apply Nat.eqb_eq.
Qed.

Lemma absent_difficulty (fields : list (jsstring * value)) :
  js "difficulty" ∉ map fst fields ->
  get (VObj fields) p_difficulty = Ok VUndefined.
Proof.
  simpl. change (prop_name p_difficulty) with (js "difficulty").
  generalize (js "difficulty"). intros k Hk. f_equal.
  induction fields as [|[k' v] fields IH]; simpl; [done|].
  simpl in Hk. apply not_elem_of_cons in Hk as [Hne Hk].
  rewrite bool_decide_eq_false_2 by done. by apply IH.
Qed.

Section Handler.

Variable reader : jsstring -> option value.
Variable fetch : jsstring -> value -> result Response.
Variable insert : NewQuestion -> promise.
Variable subjectId : jsstring.
Variable onQuestionsGenerated : bool.
Variable user : option jsstring.
Variable apiKey : option jsstring.

(** The document path lets only a non-empty array through. *)
Lemma requestQuestions_array extractedText questions :
  requestQuestions reader fetch apiKey extractedText = Ok questions ->
  exists q items, questions = VArr (q :: items).
Proof.
  unfold requestQuestions, bind, try_catch. intros H.
  repeat (case_match; try done).
  all: injection H as <-; eauto.
Qed.

Lemma requestQuestions_not_ok extractedText key response :
  apiKey = Some key -> key <> [] ->
  fetch (endpoint key) (requestBody extractedText) = Ok response ->
  ~ (200 <= status response <= 299) ->
  requestQuestions reader fetch apiKey extractedText
  = Throw (Error (js "API request failed with status "
                    ++ show_int (status response) ++ js ": "
                    ++ body response)).
Proof.
  intros -> Hkey Hfetch Hstatus. unfold requestQuestions.
  destruct key as [|c key]; [done|]. rewrite Hfetch; simpl.
  replace (ok response) with false; [done|].
  symmetry. unfold ok. apply andb_false_iff.
  rewrite Z.leb_gt, Z.leb_gt. lia.
Qed.

Lemma mcq_saveAll_store items s :
  snd (saveAll insert subjectId user (VArr items) s)
  = after insert s (requests (newQuestion subjectId user) items).
Proof. apply StoreFacts.save_all_store. Qed.

Lemma mcq_saveAll_ok items s :
  Forall (fun q => is_ok (newQuestion subjectId user q)) items ->
  Forall (fun r => is_ok (insert r))
    (requests (newQuestion subjectId user) items) ->
  fst (saveAll insert subjectId user (VArr items) s) = Ok tt.
Proof. apply StoreFacts.save_all_ok. Qed.

Lemma handleGenerateMCQs_final extractedText s items :
  extractedText <> [] ->
  requestQuestions reader fetch apiKey extractedText = Ok (VArr items) ->
  final (handleGenerateMCQs reader fetch insert subjectId
           onQuestionsGenerated user apiKey extractedText s)
  = after insert s (requests (newQuestion subjectId user) items).
Proof.
  intros Htext Hreq. unfold handleGenerateMCQs.
  destruct extractedText as [|c t]; [done|]. rewrite Hreq.
  rewrite <- mcq_saveAll_store.
  by destruct (saveAll _ _ _ _ s) as [[[]|e] s'].
Qed.

(** A response that does not parse to an array stops the handler before
    the store is reached. *)
Lemma handleGenerateMCQs_request_failed extractedText s e :
  requestQuestions reader fetch apiKey extractedText = Throw e ->
  final (handleGenerateMCQs reader fetch insert subjectId
           onQuestionsGenerated user apiKey extractedText s) = s.
Proof.
  intros Hreq. unfold handleGenerateMCQs.
  destruct extractedText; [done|]. by rewrite Hreq.
Qed.

Lemma mcq_newQuestion_fields q r :
  newQuestion subjectId user q = Ok r ->
  get q p_text = Ok (text r)
  /\ get q p_options = Ok (options r)
  /\ answerIndex q = Ok (correct_answer r)
  /\ (exists d, get q p_difficulty = Ok d
                /\ difficulty r = or_else d (VStr (js "medium")))
  /\ subject_id r = subjectId
  /\ user = Some (teacher_id r)
  /\ marks r = 1.
Proof.
  unfold newQuestion, bind, user_id.
  destruct (get q p_text); [|done].
  destruct (get q p_options); [|done].
  destruct (answerIndex q); [|done].
  destruct (get q p_difficulty) as [d|]; [|done].
  destruct user; [|done].
  intros [= <-]. simpl. repeat split. by exists d.
Qed.

Lemma mcq_newQuestion_ok uid fields opts :
  user = Some uid ->
  own (js "options") fields = VArr opts ->
  is_ok (newQuestion subjectId user (VObj fields)).
Proof.
  intros -> Hopts. unfold newQuestion, answerIndex, bind; simpl.
  change (prop_name p_options) with (js "options"). by rewrite Hopts.
Qed.

(** C3: a key among A, B, C, D over four options is mapped to the index
    [i] with ['A' + i] the key, A to 0, B to 1, C to 2, D to 3, whatever
    the options are; that index goes into the request. *)
Theorem C3_letter_is_mapped_by_position q opts letter :
  get q p_options = Ok (VArr opts) ->
  length opts = 4%nat ->
  get q p_correct_answer = Ok (VStr letter) ->
  letter ∈ [js "A"; js "B"; js "C"; js "D"] ->
  exists i : nat,
    answerIndex q = Ok (VNum (Z.of_nat i))
    /\ fromCharCode (65 + Z.of_nat i) = letter
    /\ [js "A"; js "B"; js "C"; js "D"] !! i = Some letter
    /\ forall r, newQuestion subjectId user q = Ok r ->
                 correct_answer r = VNum (Z.of_nat i).
Proof.
  intros Hopts Hlen Hkey Hletter.
  destruct opts as [|a [|b [|c [|d [|]]]]]; try done.
  assert (forall i : nat,
            answerIndex q = Ok (VNum (Z.of_nat i)) ->
            forall r, newQuestion subjectId user q = Ok r ->
                      correct_answer r = VNum (Z.of_nat i)) as Hreq.
  { intros i Hi r Hr. apply mcq_newQuestion_fields in Hr as (_ & _ & Hr & _).
    congruence. }
  rewrite (answerIndex_eq _ _ _ Hopts Hkey) in *.
  repeat (apply elem_of_cons in Hletter as [->|Hletter]);
    [exists 0%nat|exists 1%nat|exists 2%nat|exists 3%nat|
     by apply elem_of_nil in Hletter];
    (split; [by vm_compute|]); (split; [by vm_compute|]);
    (split; [by vm_compute|]); apply Hreq; by vm_compute.
Qed.


(** C7: when the completion service answers with a status outside
    200-299, the handler fails with the error that carries the status
    and the body, and the store is left as it was: nothing is issued,
    the pool is unchanged. *)
Theorem C7_service_error_persists_nothing extractedText key response s :
  extractedText <> [] ->
  apiKey = Some key -> key <> [] ->
  fetch (endpoint key) (requestBody extractedText) = Ok response ->
  ~ (200 <= status response <= 299) ->
  handleGenerateMCQs reader fetch insert subjectId onQuestionsGenerated
    user apiKey extractedText s
  = {| toast := toast_error (js "Failed to generate MCQs");
       logged := Some (Error (js "API request failed with status "
                                ++ show_int (status response) ++ js ": "
                                ++ body response));
       refreshed := false;
       final := s |}.
Proof.
  intros Htext Hkey Hne Hfetch Hstatus. unfold handleGenerateMCQs.
  destruct extractedText as [|c t]; [done|].
  by rewrite (requestQuestions_not_ok _ _ _ Hkey Hne Hfetch Hstatus).
Qed.

(** A question that has an options array gets its request when a user is
    signed in. *)
Lemma mcq_newQuestion_ok_options uid q opts :
  user = Some uid ->
  get q p_options = Ok (VArr opts) ->
  is_ok (newQuestion subjectId user q).
Proof.
  intros Huser Hopts. destruct q as [| | | | | |fields]; try done.
  apply (mcq_newQuestion_ok uid fields opts Huser).
  simpl in Hopts. by injection Hopts.
Qed.

(** C10: on the document path the difficulty of each request issued is
    the question's own when that is truthy, and 'medium' when it is
    missing, empty or otherwise falsy. Every request issued is the
    request of the question at its position, and with a user signed in
    and an options array in every question each question has its
    request, so the requests and the questions correspond one to one. *)
Theorem C10_falsy_difficulty_becomes_medium extractedText s questions :
  extractedText <> [] ->
  requestQuestions reader fetch apiKey extractedText = Ok questions ->
  exists items rs,
    questions = VArr items
    /\ issued (final (handleGenerateMCQs reader fetch insert subjectId
                        onQuestionsGenerated user apiKey extractedText s))
       = issued s ++ rs
    /\ (forall i r, rs !! i = Some r ->
          exists q d,
            items !! i = Some q
            /\ get q p_difficulty = Ok d
            /\ (truthy d = false -> difficulty r = VStr (js "medium"))
            /\ (truthy d = true -> difficulty r = d))
    /\ (forall uid, user = Some uid ->
          Forall (fun q => exists opts, get q p_options = Ok (VArr opts))
            items ->
          Forall2
            (fun q r =>
               exists d,
                 get q p_difficulty = Ok d
                 /\ (truthy d = false -> difficulty r = VStr (js "medium"))
                 /\ (truthy d = true -> difficulty r = d))
            items rs).
Proof.
  intros Htext Hreq.
  destruct (requestQuestions_array _ _ Hreq) as (q0 & items & ->).
  exists (q0 :: items), (requests (newQuestion subjectId user) (q0 :: items)).
  split; [done|].
  rewrite (handleGenerateMCQs_final _ _ _ Htext Hreq). split; [done|].
  assert (forall q r, newQuestion subjectId user q = Ok r ->
            exists d,
              get q p_difficulty = Ok d
              /\ (truthy d = false -> difficulty r = VStr (js "medium"))
              /\ (truthy d = true -> difficulty r = d)) as Hmedium.
  { intros q r Hbuilt.
    apply mcq_newQuestion_fields in Hbuilt
      as (_ & _ & _ & (d & Hd & Hdiff) & _).
    exists d. split; [done|]. rewrite Hdiff. unfold or_else.
    split; by intros ->. }
  split.
  - intros i r Hr.
    apply StoreFacts.requests_lookup in Hr as (q & Hq & Hbuilt).
    destruct (Hmedium q r Hbuilt) as (d & Hd & Hfalsy & Htruthy).
    by exists q, d.
  - intros uid Huser Hoptions. eapply Forall2_impl.
    + apply StoreFacts.requests_all.
      eapply Forall_impl; [exact Hoptions|].
      intros q [opts Hopts]. by apply (mcq_newQuestion_ok_options uid q opts).
    + exact Hmedium.
Qed.

Lemma handleGenerateMCQs_success extractedText s items :
  extractedText <> [] ->
  requestQuestions reader fetch apiKey extractedText = Ok (VArr items) ->
  Forall (fun q => is_ok (newQuestion subjectId user q)) items ->
  Forall (fun r => is_ok (insert r))
    (requests (newQuestion subjectId user) items) ->
  handleGenerateMCQs reader fetch insert subjectId onQuestionsGenerated
    user apiKey extractedText s
  = {| toast := toast_success (js "MCQs generated and saved successfully!");
       logged := None;
       refreshed := onQuestionsGenerated;
       final := after insert s (requests (newQuestion subjectId user) items)
    |}.
Proof.
  intros Htext Hreq Hbuilt Haccepted. unfold handleGenerateMCQs.
  destruct extractedText as [|c t]; [done|]. rewrite Hreq.
  pose proof (mcq_saveAll_store items s) as Hstore.
  pose proof (mcq_saveAll_ok items s Hbuilt Haccepted) as Hok.
  destruct (saveAll _ _ _ _ s) as [[[]|e] s']; simpl in *; [|done].
  by rewrite Hstore.
Qed.

End Handler.

(** C3, witness: the scenario, key C over the options x, y, z, w. *)
Lemma C3_scenario_key_C_is_index_2 :
  answerIndex (Samples.keyed (VStr (js "C"))) = Ok (VNum 2).
Proof.
  pose proof (C3_letter_is_mapped_by_position Samples.subject
                (Some Samples.teacher) (Samples.keyed (VStr (js "C")))) as H.
  edestruct H as (i & Hidx & _ & Hlookup & _).
  - reflexivity.
  - reflexivity.
  - reflexivity.
  - apply (bool_decide_unpack _). by vm_compute.
  - destruct i as [|[|[|[|i]]]]; vm_compute in Hlookup; try done.
Defined.


(** C7, witness: the service answers 500. *)
Lemma C7_status_500_persists_nothing :
  handleGenerateMCQs Json.parse
    (Samples.responds 500 (js "Internal Server Error")) Samples.accepts
    Samples.subject true (Some Samples.teacher) (Some Samples.key)
    (js "some text") Samples.empty
  = {| toast := toast_error (js "Failed to generate MCQs");
       logged :=
         Some (Error (js "API request failed with status 500: Internal Server Error"));
       refreshed := false;
       final := Samples.empty |}.
Proof.
  etrans.
  - eapply (C7_service_error_persists_nothing Json.parse
              (Samples.responds 500 (js "Internal Server Error"))
              Samples.accepts Samples.subject true (Some Samples.teacher)
              (Some Samples.key) (js "some text") Samples.key).
    + done.
    + reflexivity.
    + done.
    + reflexivity.
    + simpl. lia.
  - by vm_compute.
Defined.

(** C10, witness: the lettered sample, whose third question has no
    difficulty: three requests, the third with 'medium'. *)
Lemma C10_sample_difficulties :
  exists rs,
    requestQuestions Json.parse
      (Samples.responds 200 (Samples.completion Samples.lettered))
      (Some Samples.key) (js "some text")
    = Ok (VArr (Samples.items_of Samples.lettered))
    /\ issued (final (handleGenerateMCQs Json.parse
                        (Samples.responds 200
                           (Samples.completion Samples.lettered))
                        Samples.accepts Samples.subject true
                        (Some Samples.teacher) (Some Samples.key)
                        (js "some text") Samples.empty))
       = issued Samples.empty ++ rs
    /\ Forall2
         (fun q r =>
            exists d,
              get q p_difficulty = Ok d
              /\ (truthy d = false -> difficulty r = VStr (js "medium"))
              /\ (truthy d = true -> difficulty r = d))
         (Samples.items_of Samples.lettered) rs
    /\ map difficulty rs
       = [VStr (js "easy"); VStr (js "easy"); VStr (js "medium")].
Proof.
  assert (requestQuestions Json.parse
            (Samples.responds 200 (Samples.completion Samples.lettered))
            (Some Samples.key) (js "some text")
          = Ok (VArr (Samples.items_of Samples.lettered))) as Hreq
    by (by vm_compute).
  destruct (C10_falsy_difficulty_becomes_medium Json.parse
              (Samples.responds 200 (Samples.completion Samples.lettered))
              Samples.accepts Samples.subject true (Some Samples.teacher)
              (Some Samples.key) (js "some text") Samples.empty _
              ltac:(done) Hreq) as (items & rs & Hitems & Hissued & _ & Hall).
  injection Hitems as <-.
  exists rs. split; [exact Hreq|]. split; [exact Hissued|]. split.
  - apply (Hall Samples.teacher); [reflexivity|].
    let items := eval vm_compute in (Samples.items_of Samples.lettered) in
    change (Samples.items_of Samples.lettered) with items.
    repeat (constructor; [by eexists|]). constructor.
  - vm_compute in Hissued. by subst rs.
Defined.

(** C8: when the generation gives N well-formed questions, the handler of
    either path issues one insertion for each question, in order, each
    with the caller's teacher and subject ids and with marks 1; when the
    store accepts them all, they all join the pool and the handler reports
    success. *)
Theorem C8_one_insertion_per_question
    (reader : jsstring -> option value) (insert : NewQuestion -> promise)
    (subjectId uid : jsstring) (items : list value) (s : store) :
  Forall (fun q => GeneratedQuestion.well_formed q = true) items ->
  (forall generateContent topic count,
     trim_is_empty topic = false ->
     Gemini.generateQuestionsFromText reader generateContent topic
       (Some count) = Ok (VArr items) ->
     exists rs,
       let o := TopicGenerator.handleGenerate reader generateContent insert
                  subjectId (Some uid) topic count s in
       issued (TopicGenerator.final o) = issued s ++ rs
       /\ Forall2 (fun q r => get q p_text = Ok (text r)
                              /\ get q p_options = Ok (options r)) items rs
       /\ Forall (fun r => teacher_id r = uid /\ subject_id r = subjectId
                           /\ marks r = 1) rs
       /\ (Forall (fun r => is_ok (insert r)) rs ->
           pool (TopicGenerator.final o) = pool s ++ rs
           /\ TopicGenerator.toast o
              = toast_success (js "Questions generated successfully!")))
  /\ (forall fetch notify apiKey extractedText,
        extractedText <> [] ->
        requestQuestions reader fetch apiKey extractedText = Ok (VArr items) ->
        exists rs,
          let o := handleGenerateMCQs reader fetch insert subjectId notify
                     (Some uid) apiKey extractedText s in
          issued (final o) = issued s ++ rs
          /\ Forall2 (fun q r => get q p_text = Ok (text r)
                                 /\ get q p_options = Ok (options r)) items rs
          /\ Forall (fun r => teacher_id r = uid /\ subject_id r = subjectId
                              /\ marks r = 1) rs
          /\ (Forall (fun r => is_ok (insert r)) rs ->
              pool (final o) = pool s ++ rs
              /\ toast o
                 = toast_success (js "MCQs generated and saved successfully!"))).
Proof.
  intros Hwf. split.
  - intros generateContent topic count Htopic Hgen.
    set (build := TopicGenerator.newQuestion subjectId (Some uid)).
    assert (Forall (fun q => is_ok (build q)) items) as Hbuilt.
    { eapply Forall_impl; [exact Hwf|]. intros q Hq.
      apply (TopicGeneratorFacts.topic_newQuestion_ok _ _ uid); [done|].
      by destruct q. }
    exists (requests build items). simpl.
    rewrite (TopicGeneratorFacts.handleGenerate_final _ _ _ _ _ _ _ _ _
               Htopic Hgen).
    split; [done|].
    pose proof (StoreFacts.requests_all build items Hbuilt) as Hall.
    split; [|split].
    + eapply Forall2_impl; [exact Hall|]. intros q r Hr.
      by apply TopicGeneratorFacts.topic_newQuestion_fields in Hr as (? & ? & _).
    + clear -Hall. induction Hall as [|q r items rs Hr _ IH]; constructor;
        [|done].
      apply TopicGeneratorFacts.topic_newQuestion_fields in Hr
        as (_ & _ & _ & _ & ? & Hu & ?). by injection Hu as <-.
    + intros Haccepted. simpl. subst build.
      rewrite (StoreFacts.filter_accepted _ _ Haccepted). split; [done|].
      unfold TopicGenerator.handleGenerate. rewrite Htopic, Hgen.
      pose proof (TopicGeneratorFacts.topic_saveAll_ok insert subjectId (Some uid)
                    items s Hbuilt Haccepted) as Hok.
      by destruct (TopicGenerator.saveAll _ _ _ _ s) as [[[]|e] s'].
  - intros fetch notify apiKey extractedText Htext Hreq.
    set (build := newQuestion subjectId (Some uid)).
    assert (Forall (fun q => is_ok (build q)) items) as Hbuilt.
    { eapply Forall_impl; [exact Hwf|]. intros q Hq.
      apply well_formed_inv in Hq as (fields & opts & -> & Hopts & _).
      by apply (mcq_newQuestion_ok _ _ uid fields opts). }
    exists (requests build items). simpl.
    pose proof (StoreFacts.requests_all build items Hbuilt) as Hall.
    split; [|split; [|split]].
    + by rewrite (handleGenerateMCQs_final _ _ _ _ _ _ _ _ _ _ Htext Hreq).
    + eapply Forall2_impl; [exact Hall|]. intros q r Hr.
      by apply mcq_newQuestion_fields in Hr as (? & ? & _).
    + clear -Hall. induction Hall as [|q r items rs Hr _ IH]; constructor;
        [|done].
      apply mcq_newQuestion_fields in Hr as (_ & _ & _ & _ & ? & Hu & ?).
      by injection Hu as <-.
    + intros Haccepted. subst build.
      rewrite (handleGenerateMCQs_success _ _ _ _ _ _ _ _ _ _ Htext Hreq
                 Hbuilt Haccepted). simpl.
      by rewrite (StoreFacts.filter_accepted _ _ Haccepted).
Qed.

(** C8, witness: the three sample questions on both paths, a store that
    accepts everything. *)
Lemma C8_three_sample_questions_are_saved :
  (exists rs,
     let o := TopicGenerator.handleGenerate Json.parse
                (Samples.answers Samples.three_questions) Samples.accepts
                Samples.subject (Some Samples.teacher)
                (js "Photosynthesis") 3 Samples.empty in
     issued (TopicGenerator.final o) = issued Samples.empty ++ rs
     /\ length rs = 3%nat
     /\ Forall (fun r => teacher_id r = Samples.teacher
                         /\ subject_id r = Samples.subject /\ marks r = 1) rs
     /\ pool (TopicGenerator.final o) = pool Samples.empty ++ rs
     /\ TopicGenerator.toast o
        = toast_success (js "Questions generated successfully!"))
  /\ (exists rs,
        let o := handleGenerateMCQs Json.parse
                   (Samples.responds 200
                      (Samples.completion Samples.three_questions))
                   Samples.accepts Samples.subject true
                   (Some Samples.teacher) (Some Samples.key)
                   (js "some text") Samples.empty in
        issued (final o) = issued Samples.empty ++ rs
        /\ length rs = 3%nat
        /\ Forall (fun r => teacher_id r = Samples.teacher
                            /\ subject_id r = Samples.subject /\ marks r = 1) rs
        /\ pool (final o) = pool Samples.empty ++ rs
        /\ toast o
           = toast_success (js "MCQs generated and saved successfully!")).
Proof.
  destruct (C8_one_insertion_per_question Json.parse Samples.accepts
              Samples.subject Samples.teacher Samples.three_items
              Samples.empty) as [Htopic Hdoc].
  { apply (bool_decide_unpack _). by vm_compute. }
  assert (forall rs : list NewQuestion,
            Forall (fun r => is_ok (Samples.accepts r)) rs) as Haccepts.
  { intros rs. by apply Forall_forall. }
  split.
  - destruct (Htopic (Samples.answers Samples.three_questions)
                (js "Photosynthesis") 3) as (rs & Hissued & Hall & Hids & Hpool);
      [by vm_compute..|].
    exists rs. split; [done|]. split.
    { apply Forall2_length in Hall. rewrite <- Hall. by vm_compute. }
    split; [done|]. by apply Hpool.
  - destruct (Hdoc (Samples.responds 200
                      (Samples.completion Samples.three_questions))
                true (Some Samples.key) (js "some text"))
      as (rs & Hissued & Hall & Hids & Hpool); [done|by vm_compute|].
    exists rs. split; [done|]. split.
    { apply Forall2_length in Hall. rewrite <- Hall. by vm_compute. }
    split; [done|]. by apply Hpool.
Defined.

End DocumentUploaderFacts.

(** ** The question picker: [QuestionSelection] *)

Module QuestionSelectionFacts.
Import JS QuestionSelection.

Lemma elem_of_selectedIds (i : jsstring) (selected : list Question) :
  i ∈ selectedIds selected <-> exists q, q ∈ selected /\ id q = i.
Proof.
  unfold selectedIds. rewrite elem_of_list_to_set, list_elem_of_In, in_map_iff.
  split; intros (q & H1 & H2); exists q.
  - by rewrite list_elem_of_In.
  - by rewrite <- list_elem_of_In.
Qed.

Lemma elem_of_ids (i : jsstring) (l : list Question) :
  i ∈ map id l <-> exists q, q ∈ l /\ id q = i.
Proof.
  rewrite list_elem_of_In, in_map_iff.
  split; intros (q & H1 & H2); exists q.
  - by rewrite list_elem_of_In.
  - by rewrite <- list_elem_of_In.
Qed.

(** A question is available when it is in the pool and no selected
    question has its id. *)
Lemma elem_of_availableQuestions (q : Question)
    (questions selected : list Question) :
  q ∈ availableQuestions questions selected
  <-> q ∈ questions /\ forall p, p ∈ selected -> id p <> id q.
Proof.
  unfold availableQuestions. rewrite list_elem_of_filter, elem_of_selectedIds.
  split.
  - intros [Hno Hq]. split; [done|]. intros p Hp Hid. apply Hno. by exists p.
  - intros [Hq Hno]. split; [|done]. intros (p & Hp & Hid). by apply (Hno p).
Qed.

(** C5: the available questions are the pool without the questions whose
    id is selected: no available question shares an id with a selected
    one, every id of the pool is available or selected when the selection
    comes from the pool, and only the ids of the selection matter. *)
Theorem C5_available_is_the_complement_by_id
    (questions selected : list Question) :
  (forall q, q ∈ selected -> exists p, p ∈ questions /\ id p = id q) ->
  let available := availableQuestions questions selected in
  (forall q, q ∈ available
             <-> q ∈ questions /\ forall p, p ∈ selected -> id p <> id q)
  /\ (forall a p, a ∈ available -> p ∈ selected -> id a <> id p)
  /\ (forall i, i ∈ map id questions
                <-> i ∈ map id available \/ i ∈ map id selected)
  /\ (forall selected',
        (forall i, i ∈ map id selected' <-> i ∈ map id selected) ->
        availableQuestions questions selected' = available).
Proof.
  intros Hsub available. subst available.
  split; [|split; [|split]].
  - intros q. apply elem_of_availableQuestions.
  - intros a p Ha Hp Hid.
    apply elem_of_availableQuestions in Ha as [_ Ha]. by apply (Ha p).
  - intros i. rewrite !elem_of_ids. split.
    + intros (q & Hq & <-).
      destruct (decide (id q ∈ selectedIds selected)) as [Hsel|Hsel].
      * right. by apply elem_of_selectedIds in Hsel.
      * left. exists q. split; [|done].
        unfold availableQuestions. by apply list_elem_of_filter.
    + intros [(q & Hq & <-)|(q & Hq & <-)].
      * apply elem_of_availableQuestions in Hq as [Hq _]. by exists q.
      * destruct (Hsub q Hq) as (p & Hp & Hid). by exists p.
  - intros selected' Hids. unfold availableQuestions.
    replace (selectedIds selected') with (selectedIds selected); [done|].
    apply set_eq. intros i. unfold selectedIds.
    rewrite !elem_of_list_to_set. symmetry. apply Hids.
Qed.

(** The transitions keep the selection inside the pool, so the partition
    holds after each of them. *)
Lemma within_nil questions : within questions [].
Proof. intros q Hq. by apply elem_of_nil in Hq. Qed.

Lemma within_select questions selected q :
  within questions selected ->
  q ∈ availableQuestions questions selected ->
  within questions (select q selected).
Proof.
  intros Hsub Hq p Hp. unfold select in Hp.
  apply elem_of_app in Hp as [Hp|Hp]; [by apply Hsub|].
  apply list_elem_of_singleton in Hp as ->.
  apply elem_of_availableQuestions in Hq as [Hq _]. by exists q.
Qed.

Lemma within_remove questions selected questionId :
  within questions selected ->
  within questions (remove questionId selected).
Proof.
  intros Hsub p Hp. unfold remove in Hp.
  apply list_elem_of_filter in Hp as [_ Hp]. by apply Hsub.
Qed.

Lemma within_updateMarks questions selected questionId m :
  within questions selected ->
  within questions (updateMarks questionId m selected).
Proof.
  intros Hsub p Hp. unfold updateMarks in Hp.
  apply list_elem_of_In, in_map_iff in Hp as (q & <- & Hq).
  apply list_elem_of_In in Hq.
  destruct (Hsub q Hq) as (p & Hp & Hid). exists p. split; [done|].
  by destruct (bool_decide _).
Qed.

Lemma reachable_within questions selected :
  reachable questions selected -> within questions selected.
Proof.
  induction 1 as [|selected q _ IH Hq|selected questionId _ IH
                  |selected questionId m _ IH].
  - apply within_nil.
  - by apply within_select.
  - by apply within_remove.
  - by apply within_updateMarks.
Qed.

(** A selected question leaves the available ones, and only it. *)
Lemma available_after_select questions selected q :
  availableQuestions questions (select q selected)
  = filter (fun p => id p <> id q) (availableQuestions questions selected).
Proof.
  unfold availableQuestions, select.
  induction questions as [|p questions IH]; [done|].
  rewrite !filter_cons, IH.
  assert (id p ∈ selectedIds (selected ++ [q])
          <-> id p ∈ selectedIds selected \/ id p = id q) as Hiff.
  { unfold selectedIds. rewrite map_app. simpl.
    rewrite !elem_of_list_to_set, elem_of_app, list_elem_of_singleton.
    done. }
  destruct (decide (id p ∉ selectedIds (selected ++ [q]))) as [H1|H1];
    destruct (decide (id p ∉ selectedIds selected)) as [H2|H2];
    rewrite ?filter_cons; try destruct (decide (id p <> id q)) as [H3|H3];
    try done; exfalso; try (apply H1; intros ?); try (apply H3; intros ?);
    tauto.
Qed.

(** Editing the marks of a selected question changes the entry and not
    its id: the available questions stay the same. *)
Lemma available_after_updateMarks questions selected questionId m :
  availableQuestions questions (updateMarks questionId m selected)
  = availableQuestions questions selected.
Proof.
  unfold availableQuestions.
  replace (selectedIds (updateMarks questionId m selected))
    with (selectedIds selected); [done|].
  unfold selectedIds, updateMarks. f_equal. rewrite map_map.
  apply map_ext. intros q. by destruct (bool_decide _).
Qed.

(** C5, witness: the sample pool, with a selected copy of its second
    question that carries other marks. *)
Lemma C5_sample_pool_is_partitioned :
  availableQuestions Samples.bank Samples.chosen
  = [Samples.entry "q1" "Q1" 1; Samples.entry "q3" "Q3" 1]
  /\ (forall i, i ∈ map id Samples.bank
                <-> i ∈ map id (availableQuestions Samples.bank Samples.chosen)
                    \/ i ∈ map id Samples.chosen).
Proof.
  split; [by vm_compute|].
  apply (C5_available_is_the_complement_by_id Samples.bank Samples.chosen).
  intros q Hq. apply list_elem_of_singleton in Hq as ->.
  exists (Samples.entry "q2" "Q2" 1). split; [|done].
  unfold Samples.bank. apply elem_of_cons. right. apply elem_of_cons. by left.
Defined.

End QuestionSelectionFacts.

(** ** Choosing a file and reading its text:
    [DocumentUploader.handleFileChange], [extractTextFromPDF] *)

Module DocumentFileFacts.
Import JS Store DocumentUploader.

Lemma trimStart_head (s : jsstring) (c : N) (rest : jsstring) :
  trimStart s = c :: rest -> is_space c = false.
Proof.
  induction s as [|d s IH]; simpl; [done|].
  destruct (is_space d) eqn:E; [done|]. by intros [= <- _].
Qed.

Lemma trimStart_suffix (s : jsstring) :
  exists pre, s = pre ++ trimStart s.
Proof.
  induction s as [|d s [pre IH]]; simpl; [by exists []|].
  destruct (is_space d); [|by exists []].
  exists (d :: pre). simpl. by rewrite <- IH.
Qed.

Lemma trimEnd_prefix (s : jsstring) :
  exists post, s = trimEnd s ++ post.
Proof.
  induction s as [|d s [post IH]]; simpl; [by exists []|].
  destruct (trimEnd s) as [|k kept].
  - destruct (is_space d); [by exists (d :: s)|].
    exists s. simpl in IH. by rewrite IH.
  - exists post. simpl in *. congruence.
Qed.

Lemma trimEnd_last (s : jsstring) (c : N) :
  last (trimEnd s) = Some c -> is_space c = false.
Proof.
  induction s as [|d s IH]; simpl; [done|].
  destruct (trimEnd s) as [|k kept].
  - destruct (is_space d) eqn:E; simpl; [done|]. intros [= Hd]. congruence.
  - rewrite last_cons. destruct (last (k :: kept)) eqn:El.
    + intros [= ->]. by apply IH.
    + by apply last_None in El.
Qed.

(** What [trim] keeps is a run of the string. *)
Lemma trim_segment (s : jsstring) :
  exists pre post, s = pre ++ trim s ++ post.
Proof.
  unfold trim. destruct (trimStart_suffix s) as [pre Hpre].
  destruct (trimEnd_prefix (trimStart s)) as [post Hpost].
  exists pre, post. by rewrite <- Hpost.
Qed.

Lemma trim_head (s : jsstring) (c : N) (rest : jsstring) :
  trim s = c :: rest -> is_space c = false.
Proof.
  unfold trim. destruct (trimEnd_prefix (trimStart s)) as [post Hpost].
  intros H. rewrite H in Hpost. simpl in Hpost.
  by apply trimStart_head in Hpost.
Qed.

Lemma replace_from_spaces (b : bool) (s : jsstring) (c : N) :
  c ∈ replace_from b s -> is_space c = true -> c = space.
Proof.
  revert b. induction s as [|d s IH]; intros b; simpl.
  { by intros ?%elem_of_nil. }
  destruct (is_space d) eqn:E.
  - destruct b; [apply IH|].
    intros [->|H]%elem_of_cons; [done|]. by apply (IH true).
  - intros [->|H]%elem_of_cons; [congruence|]. by apply (IH false).
Qed.

Lemma replace_from_head (s : jsstring) (c : N) (rest : jsstring) :
  replace_from true s = c :: rest -> is_space c = false.
Proof.
  induction s as [|d s IH]; simpl; [done|].
  destruct (is_space d) eqn:E; [done|]. by intros [= <- _].
Qed.

(** After the replacement no two white space code units are neighbours. *)
Lemma replace_from_no_run (b : bool) (s l1 l2 : jsstring) (c d : N) :
  replace_from b s = l1 ++ c :: d :: l2 ->
  is_space c = true -> is_space d = true -> False.
Proof.
  revert b l1. induction s as [|x s IH]; intros b l1; simpl.
  { by destruct l1. }
  intros H Hc Hd. destruct (is_space x) eqn:E.
  - destruct b; [by apply (IH true l1)|].
    destruct l1 as [|y l1]; simpl in H; injection H as <- H.
    + apply replace_from_head in H. congruence.
    + by apply (IH true l1).
  - destruct l1 as [|y l1]; simpl in H; injection H as <- H.
    + congruence.
    + by apply (IH false l1).
Qed.

Lemma pageText_spaces (items : list (option jsstring)) (c : N) :
  c ∈ pageText items -> is_space c = true -> c = space.
Proof.
  unfold pageText, replace_spaces.
  set (joined := join (js " ") (map (default []) items)).
  destruct (trim_segment (replace_from false joined)) as (pre & post & Hseg).
  intros Hc. apply (replace_from_spaces false joined).
  rewrite Hseg. apply elem_of_app. right. apply elem_of_app. by left.
Qed.

Lemma pageText_no_line_feed (items : list (option jsstring)) :
  10%N ∉ pageText items.
Proof. intros H. by apply pageText_spaces in H. Qed.

Lemma filter_absent (t : list N) :
  10%N ∉ t -> filter (fun c => c = 10%N) t = [].
Proof.
  induction t as [|c t IH]; [done|].
  intros [Hc Ht]%not_elem_of_cons.
  rewrite filter_cons. destruct (decide _); [congruence|by apply IH].
Qed.

Lemma line_feeds_of_pages (pages : list (list (option jsstring))) :
  length (filter (fun c => c = 10%N)
            (concat (map (fun items => pageText items ++ nl) pages)))
  = length pages.
Proof.
  induction pages as [|items pages IH]; [done|].
  change (concat (map (fun items => pageText items ++ nl) (items :: pages)))
    with ((pageText items ++ nl)
            ++ concat (map (fun items => pageText items ++ nl) pages)).
  rewrite !filter_app, !length_app, IH.
  by rewrite (filter_absent _ (pageText_no_line_feed items)).
Qed.

Lemma readPages_all (pages : list (list (option jsstring)))
    (fullText : jsstring) :
  readPages (map Ok pages) fullText
  = Ok (fullText
          ++ concat (map (fun items => pageText items ++ nl) pages)).
Proof.
  revert fullText. induction pages as [|items pages IH]; intros fullText;
    simpl.
  - by rewrite app_nil_r.
  - rewrite IH. by rewrite <- !app_assoc.
Qed.

Lemma readPages_failed (pages : list Page) (fullText : jsstring) :
  Exists (fun page => is_ok page = false) pages ->
  exists e, readPages pages fullText = Throw e.
Proof.
  intros H. revert fullText.
  induction H as [page pages Hpage|page pages _ IH]; intros fullText; simpl.
  - destruct page; [done|]. by eexists.
  - destruct page as [items|e]; simpl; [apply IH|by eexists].
Qed.

(** X1: a chosen file is taken exactly when it is the first of the event,
    its type is application/pdf and its size is at most 2097152 bytes;
    another type is refused with the PDF message whatever the size, a
    larger PDF with the size message, and an event without a file changes
    nothing. *)
Theorem X1_file_is_taken_iff_pdf_within_limit
    (files : option (list File)) (f : File) :
  (handleFileChange files = Selected f
   <-> exists rest, files = Some (f :: rest)
                    /\ file_type f = js "application/pdf"
                    /\ file_size f <= 2097152)
  /\ (forall rest, files = Some (f :: rest) ->
        file_type f <> js "application/pdf" ->
        handleFileChange files
        = Refused (toast_error (js "Please upload a PDF file")))
  /\ (forall rest, files = Some (f :: rest) ->
        file_type f = js "application/pdf" ->
        2097152 < file_size f ->
        handleFileChange files
        = Refused (toast_error (js "File size exceeds 2MB limit")))
  /\ (files = None \/ files = Some [] -> handleFileChange files = Ignored).
Proof.
  unfold handleFileChange, MAX_FILE_SIZE.
  change (2 * 1024 * 1024) with 2097152.
  split; [|split; [|split]].
  - split.
    + destruct files as [[|g rest]|]; try done.
      destruct (bool_decide (file_type g = _)) eqn:Et; simpl; [|done].
      destruct (2097152 <? file_size g) eqn:Es; [done|].
      intros [= ->]. exists rest. apply bool_decide_eq_true in Et.
      apply Z.ltb_ge in Es. done.
    + intros (rest & -> & Ht & Hs).
      rewrite bool_decide_eq_true_2 by done. simpl.
      by apply Z.ltb_ge in Hs as ->.
  - intros rest -> Ht. by rewrite bool_decide_eq_false_2.
  - intros rest -> Ht Hs. rewrite bool_decide_eq_true_2 by done. simpl.
    by apply Z.ltb_lt in Hs as ->.
  - by intros [->| ->].
Qed.

(** X1, witness: a PDF of exactly 2 MiB is taken, one byte more is not. *)
Lemma X1_two_mebibytes_is_the_last_size_taken :
  handleFileChange (Some [Samples.pdf_file 2097152])
  = Selected (Samples.pdf_file 2097152)
  /\ handleFileChange (Some [Samples.pdf_file 2097153])
     = Refused (toast_error (js "File size exceeds 2MB limit")).
Proof.
  split.
  - apply (X1_file_is_taken_iff_pdf_within_limit
             (Some [Samples.pdf_file 2097152]) (Samples.pdf_file 2097152)).
    exists []. split; [done|]. split; [done|]. simpl. lia.
  - apply (X1_file_is_taken_iff_pdf_within_limit
             (Some [Samples.pdf_file 2097153]) (Samples.pdf_file 2097153)
             ) with (rest := []); [done|done|simpl; lia].
Defined.

(** X2: the text of a page is white-space normalized: its only white
    space is the space, no two spaces are neighbours, and it neither
    starts nor ends with one; so it holds no line feed. *)
Theorem X2_page_text_is_normalized (items : list (option jsstring)) :
  (forall c, c ∈ pageText items -> is_space c = true -> c = space)
  /\ (forall l1 l2 c d, pageText items = l1 ++ c :: d :: l2 ->
        ~ (is_space c = true /\ is_space d = true))
  /\ (forall c, head (pageText items) = Some c -> is_space c = false)
  /\ (forall c, last (pageText items) = Some c -> is_space c = false)
  /\ 10%N ∉ pageText items.
Proof.
  split; [apply pageText_spaces|].
  split; [|split; [|split; [|apply pageText_no_line_feed]]];
    unfold pageText, replace_spaces;
    set (joined := join (js " ") (map (default []) items));
    destruct (trim_segment (replace_from false joined))
      as (pre & post & Hseg).
  - intros l1 l2 c d Hrun [Hc Hd].
    apply (replace_from_no_run false joined (pre ++ l1) (l2 ++ post) c d);
      [|done..].
    rewrite Hseg, Hrun. by rewrite <- !app_assoc.
  - intros c Hc. destruct (trim _) as [|c' rest] eqn:E; [done|].
    injection Hc as ->. by apply trim_head in E.
  - intros c. apply trimEnd_last.
Qed.

(** X3: when every page is read, the extracted text is the texts of the
    pages in page order, each followed by a line feed, and it holds as
    many line feeds as the document has pages. *)
Theorem X3_extracted_text_has_a_line_per_page
    (pages : list (list (option jsstring))) :
  let extraction := extractTextFromPDF (Ok (map Ok pages)) in
  extractedText extraction
  = concat (map (fun items => pageText items ++ nl) pages)
  /\ shown extraction
     = toast_success (js "Text extracted from PDF successfully")
  /\ length (filter (fun c => c = 10%N) (extractedText extraction))
     = length pages.
Proof.
  unfold extractTextFromPDF. simpl. rewrite readPages_all. simpl.
  split; [done|]. split; [done|].
  apply line_feeds_of_pages.
Qed.

End DocumentFileFacts.

(** ** From the extracted text to the request:
    the guards of [DocumentUploader.handleGenerateMCQs] *)

Module DocumentGuardFacts.
Import JS Store DocumentUploader.

Section Guards.

Variable reader : jsstring -> option value.
Variable fetch : jsstring -> value -> result Response.
Variable insert : NewQuestion -> promise.
Variable subjectId : jsstring.
Variable onQuestionsGenerated : bool.
Variable user : option jsstring.
Variable apiKey : option jsstring.

(** Past the first guard the toast is one of the two of the [try]. *)
Lemma handleGenerateMCQs_toast extractedText s :
  extractedText <> [] ->
  toast (handleGenerateMCQs reader fetch insert subjectId
           onQuestionsGenerated user apiKey extractedText s)
  <> toast_error (js "No text extracted to generate questions").
Proof.
  intros Htext. unfold handleGenerateMCQs.
  destruct extractedText as [|c t]; [done|].
  destruct (requestQuestions _ _ _ _) as [questions|e]; simpl.
  - destruct (saveAll _ _ _ _ s) as [[[]|e] s']; simpl; [done|].
    by intros [=].
  - by intros [=].
Qed.

(** X4: when the document or one of its pages cannot be read, the text
    read so far is dropped: the extracted text is empty, the failure is
    shown and logged, and a click on Generate is then refused with the
    'No text extracted' toast, the store untouched. *)
Theorem X4_failed_extraction_blocks_generation (pdf : result (list Page)) s :
  (exists e, pdf = Throw e)
  \/ (exists pages, pdf = Ok pages
                    /\ Exists (fun page => is_ok page = false) pages) ->
  let extraction := extractTextFromPDF pdf in
  extractedText extraction = []
  /\ shown extraction = toast_error (js "Failed to extract text from PDF")
  /\ (exists e, reported extraction = Some e)
  /\ handleGenerateMCQs reader fetch insert subjectId onQuestionsGenerated
       user apiKey (extractedText extraction) s
     = {| toast := toast_error (js "No text extracted to generate questions");
          logged := None;
          refreshed := false;
          final := s |}.
Proof.
  intros Hpdf extraction.
  assert (exists e, extraction
                    = {| extractedText := [];
                         shown :=
                           toast_error (js "Failed to extract text from PDF");
                         reported := Some e |}) as [e ->].
  { subst extraction. unfold extractTextFromPDF.
    destruct Hpdf as [[e ->]|(pages & -> & Hpages)]; simpl; [by exists e|].
    destruct (DocumentFileFacts.readPages_failed pages [] Hpages) as [e ->].
    by exists e. }
  simpl. repeat split; eauto.
Qed.

(** X5: a document with no page is reported as extracted and then refused
    at Generate; a document with at least one page always passes the
    empty-text guard, even when no page holds any text. *)
Theorem X5_any_page_passes_the_empty_text_guard
    (pages : list (list (option jsstring))) s :
  let extraction := extractTextFromPDF (Ok (map Ok pages)) in
  shown extraction = toast_success (js "Text extracted from PDF successfully")
  /\ (pages = [] ->
      handleGenerateMCQs reader fetch insert subjectId onQuestionsGenerated
        user apiKey (extractedText extraction) s
      = {| toast := toast_error (js "No text extracted to generate questions");
           logged := None;
           refreshed := false;
           final := s |})
  /\ (pages <> [] ->
      extractedText extraction <> []
      /\ toast (handleGenerateMCQs reader fetch insert subjectId
                  onQuestionsGenerated user apiKey
                  (extractedText extraction) s)
         <> toast_error (js "No text extracted to generate questions")).
Proof.
  unfold extractTextFromPDF. simpl.
  rewrite DocumentFileFacts.readPages_all. simpl.
  split; [done|]. split; [by intros ->|].
  intros Hpages.
  assert (concat (map (fun items => pageText items ++ nl) pages) <> [])
    as Htext.
  { destruct pages as [|items pages]; [done|]. simpl.
    intros H. apply app_eq_nil in H as [H _].
    apply app_eq_nil in H as [_ H]. done. }
  split; [done|]. by apply handleGenerateMCQs_toast.
Qed.

(** X6: with some text extracted and no API key (none, or the empty
    string) the handler fails with the missing-key error whatever [fetch]
    would answer, and the store is untouched. *)
Theorem X6_missing_key_stops_before_the_request extractedText s :
  extractedText <> [] ->
  apiKey = None \/ apiKey = Some [] ->
  handleGenerateMCQs reader fetch insert subjectId onQuestionsGenerated
    user apiKey extractedText s
  = {| toast := toast_error (js "Failed to generate MCQs");
       logged :=
         Some (Error (js "Gemini API key is missing. Ensure VITE_GEMINI_API_KEY is set in your environment."));
       refreshed := false;
       final := s |}.
Proof.
  intros Htext Hkey. unfold handleGenerateMCQs, requestQuestions.
  destruct extractedText as [|c t]; [done|].
  by destruct Hkey as [-> | ->].
Qed.

(** What the handler makes of a successful response in which the reads
    of [data.candidates[0].content.parts[0].text] give [content]; the
    response may hold anything else besides. *)
Lemma requestQuestions_content extractedText key response
    data candidates candidate inner parts part content :
  apiKey = Some key -> key <> [] ->
  fetch (endpoint key) (requestBody extractedText) = Ok response ->
  200 <= status response <= 299 ->
  reader (body response) = Some data ->
  get data p_candidates = Ok candidates ->
  truthy candidates = true ->
  get candidates p_length <> Ok (VNum 0) ->
  get candidates (p_index 0) = Ok candidate ->
  get candidate p_content = Ok inner ->
  get inner p_parts = Ok parts ->
  get parts (p_index 0) = Ok part ->
  get part p_text = Ok content ->
  requestQuestions reader fetch apiKey extractedText
  = if negb (truthy content) then
      Throw (Error (js "Generated content is empty or malformed"))
    else
      match reader (ToString content) with
      | None => Throw (Error (js "Failed to parse generated content as JSON"))
      | Some (VArr (q :: items)) => Ok (VArr (q :: items))
      | Some _ =>
          Throw (Error (js "Generated content is not a valid array of questions"))
      end.
Proof.
  intros -> Hkey Hfetch Hstatus Hbody Hcands Htruthy Hlength Hcand Hinner
    Hparts Hpart Hcontent.
  unfold requestQuestions.
  destruct key as [|c key]; [done|]. rewrite Hfetch. simpl.
  replace (ok response) with true
    by (symmetry; unfold ok; apply andb_true_iff; split; apply Z.leb_le; lia).
  simpl. unfold JSON_parse at 1. simpl. rewrite Hbody. simpl.
  rewrite Hcands. simpl. rewrite Htruthy. simpl.
  assert (bind (get candidates p_length)
            (fun n => Ok match n with VNum 0 => true | _ => false end)
          = Ok false) as ->.
  { destruct (get candidates p_length) as [n|] eqn:E.
    - simpl. destruct n as [| | |z| | |]; try done. by destruct z.
    - by destruct candidates. }
  simpl. rewrite Hcand. simpl. rewrite Hinner. simpl. rewrite Hparts. simpl.
  rewrite Hpart. simpl. rewrite Hcontent. simpl.
  destruct (truthy content); simpl; [|done].
  unfold JSON_parse. destruct (reader (ToString content)) as [v|]; simpl;
    [|done].
  by destruct v as [| | | | |[|q items]|].
Qed.

(** X7: a successful response whose content, read at
    [data.candidates[0].content.parts[0].text] whatever else the response
    holds, is empty, is not JSON as it stands, or is JSON but not a
    non-empty array is turned down, each with its own error, and nothing
    reaches the store. Content that wraps an array in prose is not JSON
    as it stands: this path extracts no bracketed part. *)
Theorem X7_unusable_content_persists_nothing
    extractedText key response data candidates candidate inner parts part
    content s :
  extractedText <> [] ->
  apiKey = Some key -> key <> [] ->
  fetch (endpoint key) (requestBody extractedText) = Ok response ->
  200 <= status response <= 299 ->
  reader (body response) = Some data ->
  get data p_candidates = Ok candidates ->
  truthy candidates = true ->
  get candidates p_length <> Ok (VNum 0) ->
  get candidates (p_index 0) = Ok candidate ->
  get candidate p_content = Ok inner ->
  get inner p_parts = Ok parts ->
  get parts (p_index 0) = Ok part ->
  get part p_text = Ok content ->
  forall message,
    (truthy content = false
     /\ message = js "Generated content is empty or malformed")
    \/ (truthy content = true /\ reader (ToString content) = None
        /\ message = js "Failed to parse generated content as JSON")
    \/ (truthy content = true
        /\ (exists v, reader (ToString content) = Some v
                      /\ (isArray v = false \/ v = VArr []))
        /\ message = js "Generated content is not a valid array of questions") ->
    handleGenerateMCQs reader fetch insert subjectId onQuestionsGenerated
      user apiKey extractedText s
    = {| toast := toast_error (js "Failed to generate MCQs");
         logged := Some (Error message);
         refreshed := false;
         final := s |}.
Proof.
  intros Htext Hkey Hne Hfetch Hstatus Hbody Hcands Htruthy Hlength Hcand
    Hinner Hparts Hpart Hcontent message Hcase.
  unfold handleGenerateMCQs. destruct extractedText as [|c t]; [done|].
  rewrite (requestQuestions_content _ _ _ _ _ _ _ _ _ _ Hkey Hne Hfetch
             Hstatus Hbody Hcands Htruthy Hlength Hcand Hinner Hparts Hpart
             Hcontent).
  destruct Hcase as [[-> ->]|[(-> & -> & ->)|(-> & (v & -> & Hv) & ->)]];
    simpl; try done.
  destruct Hv as [Hv| ->]; [|done].
  by destruct v as [| | | | |[|q items]|].
Qed.

End Guards.

(** X4, witness: the second page cannot be read. *)
Lemma X4_unreadable_second_page_blocks_generation :
  let extraction :=
    extractTextFromPDF
      (Ok [Ok [Some (js "Cells")]; Throw (External (js "page"))]) in
  extractedText extraction = []
  /\ shown extraction = toast_error (js "Failed to extract text from PDF")
  /\ (exists e, reported extraction = Some e)
  /\ handleGenerateMCQs Json.parse
       (Samples.responds 200 (Samples.completion Samples.lettered))
       Samples.accepts Samples.subject true (Some Samples.teacher)
       (Some Samples.key) (extractedText extraction) Samples.empty
     = {| toast := toast_error (js "No text extracted to generate questions");
          logged := None;
          refreshed := false;
          final := Samples.empty |}.
Proof.
  apply (X4_failed_extraction_blocks_generation Json.parse
           (Samples.responds 200 (Samples.completion Samples.lettered))
           Samples.accepts Samples.subject true (Some Samples.teacher)
           (Some Samples.key)).
  right. eexists. split; [reflexivity|].
  apply Exists_cons. right. apply Exists_cons. by left.
Defined.

(** X6, witness: the key is the empty string. *)
Lemma X6_empty_key_stops_before_the_request :
  handleGenerateMCQs Json.parse
    (Samples.responds 200 (Samples.completion Samples.lettered))
    Samples.accepts Samples.subject true (Some Samples.teacher) (Some [])
    (js "some text") Samples.empty
  = {| toast := toast_error (js "Failed to generate MCQs");
       logged :=
         Some (Error (js "Gemini API key is missing. Ensure VITE_GEMINI_API_KEY is set in your environment."));
       refreshed := false;
       final := Samples.empty |}.
Proof.
  apply (X6_missing_key_stops_before_the_request Json.parse
           (Samples.responds 200 (Samples.completion Samples.lettered))
           Samples.accepts Samples.subject true (Some Samples.teacher)
           (Some []) (js "some text") Samples.empty).
  - done.
  - by right.
Defined.

(** X7, witness: a response with two candidates and further fields,
    whose first candidate carries the announced array, which the text
    path recovers: it is turned down here. *)
Lemma X7_announced_array_is_turned_down :
  handleGenerateMCQs Json.parse
    (Samples.responds 200 (Samples.rich_completion Samples.announced_inline))
    Samples.accepts Samples.subject true (Some Samples.teacher)
    (Some Samples.key) (js "some text") Samples.empty
  = {| toast := toast_error (js "Failed to generate MCQs");
       logged :=
         Some (Error (js "Failed to parse generated content as JSON"));
       refreshed := false;
       final := Samples.empty |}.
Proof.
  eapply (X7_unusable_content_persists_nothing Json.parse
            (Samples.responds 200
               (Samples.rich_completion Samples.announced_inline))
            Samples.accepts Samples.subject true (Some Samples.teacher)
            (Some Samples.key) (js "some text") Samples.key).
  - done.
  - reflexivity.
  - done.
  - reflexivity.
  - simpl. lia.
  - vm_compute. reflexivity.
  - reflexivity.
  - reflexivity.
  - by vm_compute.
  - reflexivity.
  - reflexivity.
  - reflexivity.
  - reflexivity.
  - reflexivity.
  - right. left. split; [done|]. split; [by vm_compute|done].
Defined.

End DocumentGuardFacts.

(** ** The answer key on the document path: [answerIndex] in general *)

Module AnswerKeyFacts.
Import JS Store DocumentUploader.

(** What [findIndex] answers: -1 with no index satisfying the predicate,
    else the first index that does. *)
Lemma findIndex_from_found (p : nat -> bool) (items : list value)
    (start : nat) :
  findIndex_from (fun _ idx => p idx) items start = -1
  \/ exists k : nat,
       (k < length items)%nat
       /\ findIndex_from (fun _ idx => p idx) items start
          = Z.of_nat (start + k)
       /\ p (start + k)%nat = true
       /\ forall j, (j < k)%nat -> p (start + j)%nat = false.
Proof.
  revert start. induction items as [|x items IH]; intros start; simpl;
    [by left|].
  destruct (p start) eqn:E.
  - right. exists 0%nat. rewrite Nat.add_0_r.
    repeat split; [lia|done|]. intros j Hj. lia.
  - destruct (IH (S start)) as [Hnone|(k & Hk & Hres & Hp & Hfirst)];
      [by left|].
    right. exists (S k).
    replace (start + S k)%nat with (S start + k)%nat by lia.
    repeat split; [lia|done|done|].
    intros [|j] Hj; [by rewrite Nat.add_0_r|].
    replace (start + S j)%nat with (S start + j)%nat by lia.
    apply Hfirst. lia.
Qed.

Lemma fromCharCode_inj (a b : Z) :
  0 <= a < 65536 -> 0 <= b < 65536 ->
  fromCharCode a = fromCharCode b -> a = b.
Proof.
  intros Ha Hb. unfold fromCharCode. intros [= H].
  rewrite !Z.mod_small in H by lia. by apply Z2N.inj in H; [|lia..].
Qed.

Lemma letter_at (i idx : nat) :
  Z.of_nat i < 65471 -> (idx <= i)%nat ->
  strict_eq_string (fromCharCode (65 + Z.of_nat idx))
    (VStr (fromCharCode (65 + Z.of_nat i)))
  = bool_decide (idx = i).
Proof.
  intros Hi Hidx. simpl.
  destruct (decide (idx = i)) as [->|Hne].
  - by rewrite !bool_decide_eq_true_2.
  - rewrite !bool_decide_eq_false_2; [done|done|].
    intros H. apply fromCharCode_inj in H; lia.
Qed.

Lemma findIndex_from_letter (i start : nat) (items : list value) :
  Z.of_nat i < 65471 -> (start <= i)%nat -> (i < start + length items)%nat ->
  findIndex_from
    (fun _ idx =>
       strict_eq_string (fromCharCode (65 + Z.of_nat idx))
         (VStr (fromCharCode (65 + Z.of_nat i)))) items start
  = Z.of_nat i.
Proof.
  intros Hi. revert start.
  induction items as [|x items IH]; intros start Hs Hl; simpl in Hl; [lia|].
  cbn [findIndex_from]. rewrite letter_at by lia.
  destruct (decide (start = i)) as [->|Hne].
  - by rewrite bool_decide_eq_true_2.
  - rewrite bool_decide_eq_false_2 by done. apply IH; lia.
Qed.

(** X8: the index the mapper gives is -1 or a position of the options
    array, and at a position the key is the one-letter string of that
    position; no other number is ever persisted as the answer. *)
Theorem X8_answer_index_is_minus_one_or_a_position (q : value) (v : value) :
  answerIndex q = Ok v ->
  exists opts key,
    get q p_options = Ok (VArr opts)
    /\ get q p_correct_answer = Ok key
    /\ (v = VNum (-1)
        \/ exists i : nat,
             (i < length opts)%nat /\ v = VNum (Z.of_nat i)
             /\ key = VStr (fromCharCode (65 + Z.of_nat i))).
Proof.
  unfold answerIndex, bind, call_findIndex.
  destruct (get q p_options) as [options|] eqn:Hopts; [|done].
  destruct options as [| | | | |opts|]; try done.
  assert (exists key, get q p_correct_answer = Ok key) as [key Hkey].
  { destruct q; try done; simpl; eauto. }
  rewrite Hkey. intros [= <-]. exists opts, key. split; [done|].
  split; [done|]. unfold findIndex.
  destruct (findIndex_from_found
              (fun idx =>
                 strict_eq_string (fromCharCode (65 + Z.of_nat idx)) key)
              opts 0) as [->|(k & Hk & -> & Hp & _)]; [by left|].
  right. exists k. simpl in *. split; [done|]. split; [done|].
  by apply DocumentUploaderFacts.strict_eq_string_true in Hp.
Qed.

(** X9: the mapping is by position for any number of options: the key
    whose code is 65 + i maps to i as soon as there are more than i
    options (E to 4 with five options), whatever the options are. *)
Theorem X9_letter_maps_to_position_for_any_length
    (q : value) (opts : list value) (i : nat) :
  get q p_options = Ok (VArr opts) ->
  (i < length opts)%nat ->
  Z.of_nat i < 65471 ->
  get q p_correct_answer = Ok (VStr (fromCharCode (65 + Z.of_nat i))) ->
  answerIndex q = Ok (VNum (Z.of_nat i)).
Proof.
  intros Hopts Hlen Hi Hkey.
  rewrite (DocumentUploaderFacts.answerIndex_eq _ _ _ Hopts Hkey).
  do 2 f_equal. apply findIndex_from_letter; simpl; lia.
Qed.

(** X10: a key that is not a string of one code unit (a number, as the
    topic prompt asks for, a longer string, a missing key) is the letter
    of no position: the index is -1. *)
Theorem X10_key_that_is_no_letter_gives_minus_one
    (q : value) (opts : list value) (key : value) :
  get q p_options = Ok (VArr opts) ->
  get q p_correct_answer = Ok key ->
  (forall c, key <> VStr [c]) ->
  answerIndex q = Ok (VNum (-1)).
Proof.
  intros Hopts Hkey Hnot.
  rewrite (DocumentUploaderFacts.answerIndex_eq _ _ _ Hopts Hkey).
  do 2 f_equal.
  apply (DocumentUploaderFacts.findIndex_from_none
           (fun idx =>
              strict_eq_string (fromCharCode (65 + Z.of_nat idx)) key)).
  intros j _. simpl.
  destruct (strict_eq_string _ key) eqn:E; [|done].
  apply DocumentUploaderFacts.strict_eq_string_true in E.
  by destruct (Hnot _ E).
Qed.

(** X8, witness: the key C over four options gives a position, 2. *)
Lemma X8_key_C_gives_a_position :
  exists opts key,
    get (Samples.keyed (VStr (js "C"))) p_options = Ok (VArr opts)
    /\ get (Samples.keyed (VStr (js "C"))) p_correct_answer = Ok key
    /\ (VNum 2 = VNum (-1)
        \/ exists i : nat,
             (i < length opts)%nat /\ VNum 2 = VNum (Z.of_nat i)
             /\ key = VStr (fromCharCode (65 + Z.of_nat i))).
Proof.
  apply (X8_answer_index_is_minus_one_or_a_position
           (Samples.keyed (VStr (js "C"))) (VNum 2)).
  by vm_compute.
Defined.

(** X9, witness: the key E over five options gives 4. *)
Lemma X9_key_E_of_five_options_is_index_4 :
  answerIndex
    (VObj [(js "options",
            VArr [VNull; VNull; VNull; VNull; VNull]);
           (js "correct_answer", VStr (js "E"))])
  = Ok (VNum 4).
Proof.
  apply (X9_letter_maps_to_position_for_any_length
           (VObj [(js "options",
                   VArr [VNull; VNull; VNull; VNull; VNull]);
                  (js "correct_answer", VStr (js "E"))])
           [VNull; VNull; VNull; VNull; VNull] 4).
  - reflexivity.
  - simpl. lia.
  - lia.
  - reflexivity.
Defined.

(** X10, witness: the index 2, as the topic prompt would give it. *)
Lemma X10_numeric_key_gives_minus_one :
  answerIndex (Samples.keyed (VNum 2)) = Ok (VNum (-1)).
Proof.
  eapply (X10_key_that_is_no_letter_gives_minus_one
            (Samples.keyed (VNum 2))).
  - reflexivity.
  - reflexivity.
  - done.
Defined.

End AnswerKeyFacts.

(** ** Saving: what the two handlers do to the store in general *)

Module SavingFacts.
Import JS Store.
Local Open Scope store_scope.

Section Saving.

Variable build : value -> result NewQuestion.
Variable insert : NewQuestion -> promise.

(** The first rejection is what [Promise.all] rejects with. *)
Lemma Promise_all_rejected (rs : list NewQuestion) :
  Exists (fun r => is_ok (insert r) = false) rs ->
  exists r e, r ∈ rs /\ insert r = Throw e
              /\ Promise_all (map insert rs) = Throw e.
Proof.
  induction 1 as [r rs Hr|r rs _ (r' & e & Hin & Hrej & Hall)]; simpl.
  - destruct (insert r) as [|e] eqn:E; [done|].
    exists r, e. split; [apply elem_of_cons; by left|done].
  - destruct (insert r) as [[]|e0] eqn:E.
    + exists r', e. split; [apply elem_of_cons; by right|done].
    + exists r, e0. split; [apply elem_of_cons; by left|done].
Qed.

Lemma save_all_rejected items s :
  Forall (fun q => is_ok (build q)) items ->
  Exists (fun r => is_ok (insert r) = false) (requests build items) ->
  exists r e,
    r ∈ requests build items /\ insert r = Throw e
    /\ fst (mbind (call_map (VArr items) (save build insert))
              (fun promises => lift (Promise_all promises)) s)
       = Throw e.
Proof.
  intros Hbuilt Hrej.
  destruct (Promise_all_rejected _ Hrej) as (r & e & Hin & Hr & Hall).
  exists r, e. split; [done|]. split; [done|].
  unfold call_map, mbind.
  pose proof (StoreFacts.map_M_ok build insert items s Hbuilt) as Hps.
  destruct (map_M _ items s) as [[ps|e'] s']; simpl in *; [|done].
  by injection Hps as ->.
Qed.

(** The requests stop at the first question that cannot be built. *)
Lemma requests_until pre q post e :
  Forall (fun q => is_ok (build q)) pre ->
  build q = Throw e ->
  requests build (pre ++ q :: post) = requests build pre
  /\ length (requests build pre) = length pre.
Proof.
  intros Hpre Hq. induction Hpre as [|p pre Hp _ [IH1 IH2]]; simpl.
  - by rewrite Hq.
  - destruct (build p); [|done]. simpl. by rewrite IH1, IH2.
Qed.

Lemma map_M_until pre q post e s :
  Forall (fun q => is_ok (build q)) pre ->
  build q = Throw e ->
  fst (map_M (save build insert) (pre ++ q :: post) s) = Throw e.
Proof.
  intros Hpre Hq. revert s.
  induction Hpre as [|p pre Hp _ IH]; intros s; simpl.
  - unfold mbind, save, mbind, lift. by rewrite Hq.
  - unfold mbind at 1. unfold save at 1. unfold mbind at 1, lift at 1.
    destruct (build p) as [r|]; [|done]. simpl.
    unfold mbind. specialize (IH (snd (addQuestion insert r s))).
    simpl in IH.
    by destruct (map_M (save build insert) (pre ++ q :: post) _)
      as [[ps|e'] s'].
Qed.

Lemma save_all_until pre q post e s :
  Forall (fun q => is_ok (build q)) pre ->
  build q = Throw e ->
  mbind (call_map (VArr (pre ++ q :: post)) (save build insert))
    (fun promises => lift (Promise_all promises)) s
  = (Throw e, after insert s (requests build pre)).
Proof.
  intros Hpre Hq.
  pose proof (map_M_until pre q post e s Hpre Hq) as Hfst.
  pose proof (StoreFacts.map_M_store build insert (pre ++ q :: post) s)
    as Hsnd.
  rewrite (proj1 (requests_until pre q post e Hpre Hq)) in Hsnd.
  unfold call_map, mbind.
  destruct (map_M _ (pre ++ q :: post) s) as [[ps|e'] s']; simpl in *;
    congruence.
Qed.

End Saving.

End SavingFacts.

(** ** The handlers at their edges *)

Module HandlerFacts.
Import JS Store.
Local Open Scope store_scope.

Lemma trimStart_nil (s : jsstring) :
  trimStart s = [] <-> trim_is_empty s = true.
Proof.
  unfold trim_is_empty. induction s as [|c s IH]; simpl; [done|].
  destruct (is_space c); simpl; [done|]. split; [done|discriminate].
Qed.

(** [!s.trim()] holds exactly when [s] is white space throughout. *)
Lemma trim_empty_iff (s : jsstring) :
  trim s = [] <-> trim_is_empty s = true.
Proof.
  rewrite <- trimStart_nil. unfold trim. split.
  - destruct (trimStart s) as [|c rest] eqn:E; [done|].
    apply DocumentFileFacts.trimStart_head in E. simpl.
    destruct (trimEnd rest); [|done]. by rewrite E.
  - by intros ->.
Qed.

Lemma topic_build_without_user subjectId q :
  exists e, TopicGenerator.newQuestion subjectId None q = Throw e
            /\ e = TypeError.
Proof.
  exists TypeError. split; [|done].
  unfold TopicGenerator.newQuestion, bind, user_id.
  destruct q; simpl; try done; repeat case_match; done.
Qed.

Lemma mcq_build_without_user subjectId q :
  DocumentUploader.newQuestion subjectId None q = Throw TypeError.
Proof.
  destruct (nullish q) eqn:Hq.
  { by destruct q. }
  unfold DocumentUploader.newQuestion, bind.
  destruct (TopicGeneratorFacts.get_not_nullish q p_text Hq) as [? ->].
  destruct (TopicGeneratorFacts.get_not_nullish q p_options Hq)
    as [options Hoptions].
  rewrite Hoptions.
  destruct (TopicGeneratorFacts.get_not_nullish q p_difficulty Hq) as [? ->].
  unfold DocumentUploader.answerIndex, bind. rewrite Hoptions.
  by destruct options.
Qed.

(** X11: neither handler removes, changes or reorders what the store
    already holds: whatever the inputs, the requests issued before stay
    first among the issued ones, and the pool gains exactly the accepted
    ones of the new requests. *)
Theorem X11_handlers_only_append_to_the_store
    (reader : jsstring -> option value) (insert : NewQuestion -> promise)
    (subjectId : jsstring) (user : option jsstring) (s : store) :
  (forall generateContent topic count,
     exists rs,
       let o := TopicGenerator.handleGenerate reader generateContent insert
                  subjectId user topic count s in
       issued (TopicGenerator.final o) = issued s ++ rs
       /\ pool (TopicGenerator.final o)
          = pool s ++ filter (fun r => is_ok (insert r)) rs)
  /\ (forall fetch notify apiKey extractedText,
        exists rs,
          let o := DocumentUploader.handleGenerateMCQs reader fetch insert
                     subjectId notify user apiKey extractedText s in
          issued (DocumentUploader.final o) = issued s ++ rs
          /\ pool (DocumentUploader.final o)
             = pool s ++ filter (fun r => is_ok (insert r)) rs).
Proof.
  assert (forall s' rs, s' = after insert s rs ->
            issued s' = issued s ++ rs
            /\ pool s' = pool s ++ filter (fun r => is_ok (insert r)) rs)
    as Hafter by (by intros s' rs ->).
  assert (s = after insert s []) as Hnil
    by (by rewrite StoreFacts.after_nil).
  split.
  - intros generateContent topic count.
    unfold TopicGenerator.handleGenerate.
    destruct (trim_is_empty topic); [exists []; by apply Hafter|].
    destruct (Gemini.generateQuestionsFromText _ _ _ _) as [questions|e];
      [|exists []; by apply Hafter].
    destruct questions as [| | | | |items|];
      try (exists []; by apply Hafter).
    exists (requests (TopicGenerator.newQuestion subjectId user) items).
    apply Hafter. simpl.
    rewrite <- TopicGeneratorFacts.topic_saveAll_store.
    by destruct (TopicGenerator.saveAll _ _ _ _ s) as [[[]|e] s'].
  - intros fetch notify apiKey extractedText.
    unfold DocumentUploader.handleGenerateMCQs.
    destruct extractedText as [|c t]; [exists []; by apply Hafter|].
    destruct (DocumentUploader.requestQuestions _ _ _ _) as [questions|e]
      eqn:Hreq; [|exists []; by apply Hafter].
    destruct (DocumentUploaderFacts.requestQuestions_array _ _ _ _ _ Hreq)
      as (q & items & ->).
    exists (requests (DocumentUploader.newQuestion subjectId user)
              (q :: items)).
    apply Hafter.
    rewrite <- DocumentUploaderFacts.mcq_saveAll_store.
    by destruct (DocumentUploader.saveAll _ _ _ _ s) as [[[]|e] s'].
Qed.

(** X12: saving is not atomic. With N well-formed questions of which the
    store turns down at least one, either handler reports a failure (the
    error toast, the rejection logged, no refresh), yet all N requests
    were issued and every accepted one is in the pool, those after the
    rejected one as well. *)
Theorem X12_a_rejected_insertion_does_not_undo_the_others
    (reader : jsstring -> option value) (insert : NewQuestion -> promise)
    (subjectId uid : jsstring) (items : list value) (s : store) :
  Forall (fun q => GeneratedQuestion.well_formed q = true) items ->
  (forall generateContent topic count,
     trim_is_empty topic = false ->
     Gemini.generateQuestionsFromText reader generateContent topic
       (Some count) = Ok (VArr items) ->
     let rs := requests (TopicGenerator.newQuestion subjectId (Some uid))
                 items in
     Exists (fun r => is_ok (insert r) = false) rs ->
     let o := TopicGenerator.handleGenerate reader generateContent insert
                subjectId (Some uid) topic count s in
     TopicGenerator.toast o = toast_error (js "Failed to generate questions")
     /\ TopicGenerator.refreshed o = false
     /\ (exists r e, r ∈ rs /\ insert r = Throw e
                     /\ TopicGenerator.logged o = Some e)
     /\ length rs = length items
     /\ issued (TopicGenerator.final o) = issued s ++ rs
     /\ pool (TopicGenerator.final o)
        = pool s ++ filter (fun r => is_ok (insert r)) rs)
  /\ (forall fetch notify apiKey extractedText,
        extractedText <> [] ->
        DocumentUploader.requestQuestions reader fetch apiKey extractedText
        = Ok (VArr items) ->
        let rs := requests (DocumentUploader.newQuestion subjectId (Some uid))
                    items in
        Exists (fun r => is_ok (insert r) = false) rs ->
        let o := DocumentUploader.handleGenerateMCQs reader fetch insert
                   subjectId notify (Some uid) apiKey extractedText s in
        DocumentUploader.toast o = toast_error (js "Failed to generate MCQs")
        /\ DocumentUploader.refreshed o = false
        /\ (exists r e, r ∈ rs /\ insert r = Throw e
                        /\ DocumentUploader.logged o = Some e)
        /\ length rs = length items
        /\ issued (DocumentUploader.final o) = issued s ++ rs
        /\ pool (DocumentUploader.final o)
           = pool s ++ filter (fun r => is_ok (insert r)) rs).
Proof.
  intros Hwf. split.
  - intros generateContent topic count Htopic Hgen rs Hrej o.
    assert (Forall (fun q => is_ok (TopicGenerator.newQuestion subjectId
                                      (Some uid) q)) items) as Hbuilt.
    { eapply Forall_impl; [exact Hwf|]. intros q Hq.
      apply (TopicGeneratorFacts.topic_newQuestion_ok _ _ uid); [done|].
      by destruct q. }
    destruct (SavingFacts.save_all_rejected _ insert items s Hbuilt Hrej)
      as (r & e & Hin & Hr & Hfst).
    pose proof (TopicGeneratorFacts.topic_saveAll_store insert subjectId
                  (Some uid) items s) as Hsnd.
    assert (o = TopicGenerator.failed e (Some (VArr items))
                  (after insert s rs)) as ->.
    { subst o. unfold TopicGenerator.handleGenerate. rewrite Htopic, Hgen.
      unfold TopicGenerator.saveAll in *.
      change (TopicGenerator.saveQuestion insert subjectId (Some uid))
        with (save (TopicGenerator.newQuestion subjectId (Some uid)) insert).
      destruct (mbind _ _ s) as [[[]|e'] s']; simpl in *; [discriminate|].
      injection Hfst as ->. by rewrite Hsnd. }
    simpl. repeat split; eauto.
    symmetry. eapply Forall2_length, StoreFacts.requests_all. done.
  - intros fetch notify apiKey extractedText Htext Hreq rs Hrej o.
    assert (Forall (fun q => is_ok (DocumentUploader.newQuestion subjectId
                                      (Some uid) q)) items) as Hbuilt.
    { eapply Forall_impl; [exact Hwf|]. intros q Hq.
      apply DocumentUploaderFacts.well_formed_inv in Hq
        as (fields & opts & -> & Hopts & _).
      by apply (DocumentUploaderFacts.mcq_newQuestion_ok _ _ uid fields opts). }
    destruct (SavingFacts.save_all_rejected _ insert items s Hbuilt Hrej)
      as (r & e & Hin & Hr & Hfst).
    pose proof (DocumentUploaderFacts.mcq_saveAll_store insert subjectId
                  (Some uid) items s) as Hsnd.
    assert (o = DocumentUploader.failed e (after insert s rs)) as ->.
    { subst o. unfold DocumentUploader.handleGenerateMCQs.
      destruct extractedText as [|c t]; [done|]. rewrite Hreq.
      unfold DocumentUploader.saveAll in *.
      change (DocumentUploader.saveQuestion insert subjectId (Some uid))
        with (save (DocumentUploader.newQuestion subjectId (Some uid))
                insert).
      destruct (mbind _ _ s) as [[[]|e'] s']; simpl in *; [discriminate|].
      injection Hfst as ->. by rewrite Hsnd. }
    simpl. repeat split; eauto.
    symmetry. eapply Forall2_length, StoreFacts.requests_all. done.
Qed.

(** X12, witness: the store turns down Q2 of the three sample questions;
    Q1 and Q3 are in the pool all the same. *)
Lemma X12_rejected_Q2_leaves_Q1_and_Q3_saved :
  let o := TopicGenerator.handleGenerate Json.parse
             (Samples.answers Samples.three_questions) Samples.picky
             Samples.subject (Some Samples.teacher)
             (js "Photosynthesis") 3 Samples.empty in
  TopicGenerator.toast o = toast_error (js "Failed to generate questions")
  /\ map text (issued (TopicGenerator.final o))
     = [VStr (js "Q1"); VStr (js "Q2"); VStr (js "Q3")]
  /\ map text (pool (TopicGenerator.final o))
     = [VStr (js "Q1"); VStr (js "Q3")].
Proof.
  destruct (X12_a_rejected_insertion_does_not_undo_the_others Json.parse
              Samples.picky Samples.subject Samples.teacher
              Samples.three_items Samples.empty) as [Htopic _].
  { apply (bool_decide_unpack _). by vm_compute. }
  destruct (Htopic (Samples.answers Samples.three_questions)
              (js "Photosynthesis") 3) as (Htoast & _ & _ & _ & Hissued & Hpool).
  - by vm_compute.
  - by vm_compute.
  - apply Exists_cons. right. apply Exists_cons. left. by vm_compute.
  - split; [exact Htoast|]. split.
    + rewrite Hissued. by vm_compute.
    + rewrite Hpool. by vm_compute.
Defined.

(** X13: on the topic path a [null] among the questions stops the saving
    there: the questions before it have their requests issued, the ones
    after it have none, a TypeError is logged, and the whole response,
    null included, was put in the [generatedQuestions] state before. *)
Theorem X13_null_question_stops_the_topic_saving
    (reader : jsstring -> option value)
    (generateContent : jsstring -> result jsstring)
    (insert : NewQuestion -> promise) (subjectId uid : jsstring)
    (topic : jsstring) (count : Z) (s : store)
    (pre post : list value) (q : value) :
  trim_is_empty topic = false ->
  Gemini.generateQuestionsFromText reader generateContent topic (Some count)
  = Ok (VArr (pre ++ q :: post)) ->
  Forall (fun p => nullish p = false) pre ->
  nullish q = true ->
  let rs := requests (TopicGenerator.newQuestion subjectId (Some uid)) pre in
  TopicGenerator.handleGenerate reader generateContent insert subjectId
    (Some uid) topic count s
  = {| TopicGenerator.toast := toast_error (js "Failed to generate questions");
       TopicGenerator.logged := Some TypeError;
       TopicGenerator.generatedQuestions := Some (VArr (pre ++ q :: post));
       TopicGenerator.refreshed := false;
       TopicGenerator.final := after insert s rs |}
  /\ length rs = length pre.
Proof.
  intros Htopic Hgen Hpre Hq rs.
  assert (Forall (fun p => is_ok (TopicGenerator.newQuestion subjectId
                                    (Some uid) p)) pre) as Hbuilt.
  { eapply Forall_impl; [exact Hpre|]. intros p Hp.
    by apply (TopicGeneratorFacts.topic_newQuestion_ok _ _ uid). }
  assert (TopicGenerator.newQuestion subjectId (Some uid) q = Throw TypeError)
    as Hthrow by (by destruct q).
  split.
  - unfold TopicGenerator.handleGenerate. rewrite Htopic, Hgen.
    unfold TopicGenerator.saveAll.
    change (TopicGenerator.saveQuestion insert subjectId (Some uid))
      with (save (TopicGenerator.newQuestion subjectId (Some uid)) insert).
    by rewrite (SavingFacts.save_all_until _ insert pre q post TypeError s
                  Hbuilt Hthrow).
  - by apply (SavingFacts.requests_until _ pre q post TypeError).
Qed.

(** X13, witness: [null] between Q1 and Q3. *)
Lemma X13_null_between_two_questions :
  let o := TopicGenerator.handleGenerate Json.parse
             (Samples.answers Samples.with_null) Samples.accepts
             Samples.subject (Some Samples.teacher)
             (js "Photosynthesis") 3 Samples.empty in
  TopicGenerator.logged o = Some TypeError
  /\ map text (issued (TopicGenerator.final o)) = [VStr (js "Q1")].
Proof.
  pose proof (X13_null_question_stops_the_topic_saving Json.parse
                (Samples.answers Samples.with_null) Samples.accepts
                Samples.subject Samples.teacher (js "Photosynthesis") 3
                Samples.empty) as H.
  destruct (H (take 1 (Samples.items_of Samples.with_null))
               (drop 2 (Samples.items_of Samples.with_null)) VNull)
    as [Ho _].
  - by vm_compute.
  - by vm_compute.
  - apply (bool_decide_unpack _). by vm_compute.
  - reflexivity.
  - cbv zeta. rewrite Ho. split; [done|]. by vm_compute.
Defined.

(** X14: on the document path a question whose [options] is not an array
    stops the saving in the same way: the requests of the questions
    before it are issued, a TypeError is logged, nothing follows. *)
Theorem X14_question_without_options_stops_the_document_saving
    (reader : jsstring -> option value)
    (fetch : jsstring -> value -> result DocumentUploader.Response)
    (insert : NewQuestion -> promise) (subjectId uid : jsstring)
    (notify : bool) (apiKey : option jsstring)
    (extractedText : jsstring) (s : store)
    (pre post : list value) (q options : value) :
  extractedText <> [] ->
  DocumentUploader.requestQuestions reader fetch apiKey extractedText
  = Ok (VArr (pre ++ q :: post)) ->
  Forall (fun p => GeneratedQuestion.well_formed p = true) pre ->
  get q p_options = Ok options ->
  isArray options = false ->
  let rs := requests (DocumentUploader.newQuestion subjectId (Some uid)) pre in
  DocumentUploader.handleGenerateMCQs reader fetch insert subjectId notify
    (Some uid) apiKey extractedText s
  = {| DocumentUploader.toast := toast_error (js "Failed to generate MCQs");
       DocumentUploader.logged := Some TypeError;
       DocumentUploader.refreshed := false;
       DocumentUploader.final := after insert s rs |}
  /\ length rs = length pre.
Proof.
  intros Htext Hreq Hpre Hoptions Harray rs.
  assert (Forall (fun p => is_ok (DocumentUploader.newQuestion subjectId
                                    (Some uid) p)) pre) as Hbuilt.
  { eapply Forall_impl; [exact Hpre|]. intros p Hp.
    apply DocumentUploaderFacts.well_formed_inv in Hp
      as (fields & opts & -> & Hopts & _).
    by apply (DocumentUploaderFacts.mcq_newQuestion_ok _ _ uid fields opts). }
  assert (DocumentUploader.newQuestion subjectId (Some uid) q
          = Throw TypeError) as Hthrow.
  { assert (nullish q = false) as Hq by (by destruct q).
    unfold DocumentUploader.newQuestion, bind.
    destruct (TopicGeneratorFacts.get_not_nullish q p_text Hq) as [? ->].
    rewrite Hoptions. unfold DocumentUploader.answerIndex, bind.
    rewrite Hoptions. by destruct options. }
  split.
  - unfold DocumentUploader.handleGenerateMCQs.
    destruct extractedText as [|c t]; [done|]. rewrite Hreq.
    unfold DocumentUploader.saveAll.
    change (DocumentUploader.saveQuestion insert subjectId (Some uid))
      with (save (DocumentUploader.newQuestion subjectId (Some uid)) insert).
    by rewrite (SavingFacts.save_all_until _ insert pre q post TypeError s
                  Hbuilt Hthrow).
  - by apply (SavingFacts.requests_until _ pre q post TypeError).
Qed.

(** X14, witness: the second question has no options. *)
Lemma X14_second_question_without_options :
  let o := DocumentUploader.handleGenerateMCQs Json.parse
             (Samples.responds 200 (Samples.completion Samples.no_options))
             Samples.accepts Samples.subject true (Some Samples.teacher)
             (Some Samples.key) (js "some text") Samples.empty in
  DocumentUploader.logged o = Some TypeError
  /\ map text (issued (DocumentUploader.final o)) = [VStr (js "Q1")].
Proof.
  pose proof (X14_question_without_options_stops_the_document_saving
                Json.parse
                (Samples.responds 200 (Samples.completion Samples.no_options))
                Samples.accepts Samples.subject Samples.teacher true
                (Some Samples.key) (js "some text") Samples.empty) as H.
  destruct (H (take 1 (Samples.items_of Samples.no_options)) []
               (default VNull (Samples.items_of Samples.no_options !! 1%nat))
               VUndefined) as [Ho _].
  - done.
  - by vm_compute.
  - apply (bool_decide_unpack _). by vm_compute.
  - by vm_compute.
  - reflexivity.
  - cbv zeta. rewrite Ho. split; [done|]. by vm_compute.
Defined.

(** X15: with nobody signed in, [user!.id] throws at the first question:
    for a non-empty list either handler logs a TypeError and issues
    nothing. *)
Theorem X15_without_a_user_nothing_is_issued
    (reader : jsstring -> option value) (insert : NewQuestion -> promise)
    (subjectId : jsstring) (q : value) (items : list value) (s : store) :
  (forall generateContent topic count,
     trim_is_empty topic = false ->
     Gemini.generateQuestionsFromText reader generateContent topic
       (Some count) = Ok (VArr (q :: items)) ->
     TopicGenerator.handleGenerate reader generateContent insert subjectId
       None topic count s
     = {| TopicGenerator.toast :=
            toast_error (js "Failed to generate questions");
          TopicGenerator.logged := Some TypeError;
          TopicGenerator.generatedQuestions := Some (VArr (q :: items));
          TopicGenerator.refreshed := false;
          TopicGenerator.final := s |})
  /\ (forall fetch notify apiKey extractedText,
        extractedText <> [] ->
        DocumentUploader.requestQuestions reader fetch apiKey extractedText
        = Ok (VArr (q :: items)) ->
        DocumentUploader.handleGenerateMCQs reader fetch insert subjectId
          notify None apiKey extractedText s
        = {| DocumentUploader.toast :=
               toast_error (js "Failed to generate MCQs");
             DocumentUploader.logged := Some TypeError;
             DocumentUploader.refreshed := false;
             DocumentUploader.final := s |}).
Proof.
  split.
  - intros generateContent topic count Htopic Hgen.
    destruct (topic_build_without_user subjectId q) as (e & Hthrow & ->).
    unfold TopicGenerator.handleGenerate. rewrite Htopic, Hgen.
    unfold TopicGenerator.saveAll.
    change (TopicGenerator.saveQuestion insert subjectId None)
      with (save (TopicGenerator.newQuestion subjectId None) insert).
    pose proof (SavingFacts.save_all_until _ insert [] q items TypeError s
                  (Forall_nil_2 _) Hthrow) as Hsave.
    cbn [app requests] in Hsave. rewrite Hsave.
    by rewrite StoreFacts.after_nil.
  - intros fetch notify apiKey extractedText Htext Hreq.
    pose proof (mcq_build_without_user subjectId q) as Hthrow.
    unfold DocumentUploader.handleGenerateMCQs.
    destruct extractedText as [|c t]; [done|]. rewrite Hreq.
    unfold DocumentUploader.saveAll.
    change (DocumentUploader.saveQuestion insert subjectId None)
      with (save (DocumentUploader.newQuestion subjectId None) insert).
    pose proof (SavingFacts.save_all_until _ insert [] q items TypeError s
                  (Forall_nil_2 _) Hthrow) as Hsave.
    cbn [app requests] in Hsave. rewrite Hsave.
    by rewrite StoreFacts.after_nil.
Qed.

End HandlerFacts.

(** ** The topic handler before it reaches the store *)

Module TopicEdgeFacts.
Import JS Store TopicGenerator.

Section Edges.

Variable reader : jsstring -> option value.
Variable generateContent : jsstring -> result jsstring.
Variable insert : NewQuestion -> promise.
Variable subjectId : jsstring.
Variable user : option jsstring.

(** X16: the 'Please enter a topic' toast is shown exactly when the topic
    is empty once trimmed, that is, made of white space only; then
    nothing else happens: no log, no state set, the store as it was. *)
Theorem X16_blank_topic_is_asked_again (topic : jsstring) (count : Z)
    (s : store) :
  let o := handleGenerate reader generateContent insert subjectId user
             topic count s in
  (toast o = toast_error (js "Please enter a topic") <-> trim topic = [])
  /\ (trim topic = [] <-> Forall (fun c => is_space c = true) topic)
  /\ (trim topic = [] ->
      o = {| toast := toast_error (js "Please enter a topic");
             logged := None;
             generatedQuestions := None;
             refreshed := false;
             final := s |}).
Proof.
  intros o. subst o. rewrite HandlerFacts.trim_empty_iff.
  unfold handleGenerate. split; [|split].
  - destruct (trim_is_empty topic); [done|].
    split; [|done].
    destruct (Gemini.generateQuestionsFromText _ _ _ _) as [questions|e];
      simpl; [|by intros [=]].
    destruct (saveAll _ _ _ _ s) as [[[]|e] s']; simpl; [done|].
    by intros [=].
  - unfold trim_is_empty. rewrite forallb_forall, Forall_forall.
    split; intros H c Hc; apply H; by apply list_elem_of_In.
  - by intros ->.
Qed.

(** X17: when the generation fails, for whatever reason (the SDK throws,
    the response cannot be parsed), the handler logs the one error
    'Failed to generate questions', sets no questions and leaves the
    store as it was. *)
Theorem X17_failed_generation_changes_nothing (topic : jsstring) (count : Z)
    (s : store) (e : exn) :
  trim_is_empty topic = false ->
  Gemini.generateQuestionsFromText reader generateContent topic (Some count)
  = Throw e ->
  handleGenerate reader generateContent insert subjectId user topic count s
  = {| toast := toast_error (js "Failed to generate questions");
       logged := Some (Error (js "Failed to generate questions"));
       generatedQuestions := None;
       refreshed := false;
       final := s |}.
Proof.
  intros Htopic Hgen. unfold handleGenerate. rewrite Htopic, Hgen.
  by rewrite (GeminiFacts.generateQuestionsFromText_throws _ _ _ _ _ Hgen).
Qed.

(** X18: a response that parses to something that is no array is put in
    the [generatedQuestions] state as it is; the [map] call then throws a
    TypeError and nothing is issued. *)
Theorem X18_non_array_reaches_the_state_not_the_store
    (topic : jsstring) (count : Z) (s : store) (questions : value) :
  trim_is_empty topic = false ->
  Gemini.generateQuestionsFromText reader generateContent topic (Some count)
  = Ok questions ->
  isArray questions = false ->
  handleGenerate reader generateContent insert subjectId user topic count s
  = {| toast := toast_error (js "Failed to generate questions");
       logged := Some TypeError;
       generatedQuestions := Some questions;
       refreshed := false;
       final := s |}.
Proof.
  intros Htopic Hgen Harray. unfold handleGenerate. rewrite Htopic, Hgen.
  by destruct questions.
Qed.

(** X19: an empty array is a success on the topic path: the success toast
    is shown and the refresh callback is called with nothing issued, even
    with nobody signed in. *)
Theorem X19_empty_array_is_a_success_on_the_topic_path
    (topic : jsstring) (count : Z) (s : store) :
  trim_is_empty topic = false ->
  Gemini.generateQuestionsFromText reader generateContent topic (Some count)
  = Ok (VArr []) ->
  handleGenerate reader generateContent insert subjectId user topic count s
  = {| toast := toast_success (js "Questions generated successfully!");
       logged := None;
       generatedQuestions := Some (VArr []);
       refreshed := true;
       final := s |}.
Proof.
  intros Htopic Hgen. unfold handleGenerate. by rewrite Htopic, Hgen.
Qed.

End Edges.

(** X17, witness: the SDK throws. *)
Lemma X17_sdk_failure_changes_nothing :
  handleGenerate Json.parse (fun _ => Throw (External (js "503")))
    Samples.accepts Samples.subject (Some Samples.teacher)
    (js "Photosynthesis") 3 Samples.empty
  = {| toast := toast_error (js "Failed to generate questions");
       logged := Some (Error (js "Failed to generate questions"));
       generatedQuestions := None;
       refreshed := false;
       final := Samples.empty |}.
Proof.
  eapply (X17_failed_generation_changes_nothing Json.parse
            (fun _ => Throw (External (js "503"))) Samples.accepts
            Samples.subject (Some Samples.teacher) (js "Photosynthesis") 3
            Samples.empty).
  - by vm_compute.
  - vm_compute. reflexivity.
Defined.

(** X18, witness: the response is one question object. *)
Lemma X18_single_object_reaches_the_state :
  exists fields,
    handleGenerate Json.parse (Samples.answers Samples.single_object)
      Samples.accepts Samples.subject (Some Samples.teacher)
      (js "Photosynthesis") 1 Samples.empty
    = {| toast := toast_error (js "Failed to generate questions");
         logged := Some TypeError;
         generatedQuestions := Some (VObj fields);
         refreshed := false;
         final := Samples.empty |}.
Proof.
  eexists.
  eapply (X18_non_array_reaches_the_state_not_the_store Json.parse
            (Samples.answers Samples.single_object) Samples.accepts
            Samples.subject (Some Samples.teacher) (js "Photosynthesis") 1
            Samples.empty).
  - by vm_compute.
  - vm_compute. reflexivity.
  - reflexivity.
Defined.

(** X19, witness: the response is [[]], nobody signed in. *)
Lemma X19_empty_response_is_reported_as_success :
  handleGenerate Json.parse (Samples.answers (js "[]")) Samples.accepts
    Samples.subject None (js "Photosynthesis") 3 Samples.empty
  = {| toast := toast_success (js "Questions generated successfully!");
       logged := None;
       generatedQuestions := Some (VArr []);
       refreshed := true;
       final := Samples.empty |}.
Proof.
  apply (X19_empty_array_is_a_success_on_the_topic_path Json.parse
           (Samples.answers (js "[]")) Samples.accepts Samples.subject None
           (js "Photosynthesis") 3 Samples.empty).
  - by vm_compute.
  - by vm_compute.
Defined.

End TopicEdgeFacts.

(** ** [generateQuestionsFromText]: what its callers can see *)

Module GeminiEdgeFacts.
Import JS Gemini.

(** The reference reader makes an array, or nothing, of a text that opens
    with a bracket. *)
Lemma parse_items_array (fuel : nat) (acc : list value) (s : jsstring)
    (v : value) (rest : jsstring) :
  Json.parse_items fuel acc s = Some (v, rest) -> isArray v = true.
Proof.
  revert acc s. induction fuel as [|fuel IH]; intros acc s; [done|].
  cbn [Json.parse_items].
  destruct (Json.parse_value fuel s) as [[v' rest']|]; [|done].
  destruct (Json.skip_ws rest') as [|c rest1]; [done|].
  destruct (c =? 44)%N; [apply IH|].
  destruct (c =? 93)%N; [|done]. by intros [= <- _].
Qed.

Lemma parse_value_bracket (fuel : nat) (s : jsstring) (v : value)
    (rest : jsstring) :
  Json.parse_value fuel (open_bracket :: s) = Some (v, rest) ->
  isArray v = true.
Proof.
  destruct fuel as [|fuel]; [done|]. cbn [Json.parse_value].
  change (Json.skip_ws (open_bracket :: s)) with (open_bracket :: s).
  change (open_bracket =? 91)%N with true. cbv iota.
  destruct (Json.skip_ws s) as [|c1 rest1]; [done|].
  destruct (c1 =? 93)%N; [by intros [= <- _]|].
  apply parse_items_array.
Qed.

Lemma Json_parse_bracket (s : jsstring) (v : value) :
  Json.parse (open_bracket :: s) = Some v -> isArray v = true.
Proof.
  unfold Json.parse.
  destruct (Json.parse_value _ _) as [[v' rest]|] eqn:E; [|done].
  destruct (Json.skip_ws rest); [|done]. intros [= <-].
  by apply parse_value_bracket in E.
Qed.

Section Callers.

Variable reader : jsstring -> option value.
Variable generateContent : jsstring -> result jsstring.

(** X20: whatever goes wrong, the caller gets the one error 'Failed to
    generate questions': when the SDK throws, when the response is not
    JSON and holds no bracketed part, when its bracketed part is not JSON
    either. The inner error 'Failed to parse generated questions' never
    leaves the function. *)
Theorem X20_every_failure_is_the_same_error (text : jsstring)
    (count : option Z) :
  let outcome := generateQuestionsFromText reader generateContent text count in
  let failure := Throw (Error (js "Failed to generate questions")) in
  (forall e, outcome = Throw e -> outcome = failure)
  /\ (forall e, generateContent (prompt (default 5 count) text) = Throw e ->
        outcome = failure)
  /\ (forall responseText,
        generateContent (prompt (default 5 count) text) = Ok responseText ->
        reader responseText = None ->
        match_array responseText = None \/
        (exists m, match_array responseText = Some m /\ reader m = None) ->
        outcome = failure)
  /\ outcome <> Throw (Error (js "Failed to parse generated questions")).
Proof.
  intros outcome failure. subst outcome failure.
  split; [|split; [|split]].
  - intros e He. rewrite He.
    by rewrite (GeminiFacts.generateQuestionsFromText_throws _ _ _ _ _ He).
  - intros e He. unfold generateQuestionsFromText. by rewrite He.
  - intros responseText Hgen Hdirect Hcase.
    rewrite (GeminiFacts.generateQuestionsFromText_response _ _ _ _ _ Hgen).
    rewrite (GeminiFacts.parseResponse_fallback _ _ Hdirect).
    destruct Hcase as [->|(m & -> & Hm)]; [done|].
    unfold JSON_parse. simpl. by rewrite Hm.
  - intros H. apply GeminiFacts.generateQuestionsFromText_throws in H.
    by vm_compute in H.
Qed.

(** X21: with a JSON reader, for which a text that opens with '[' can
    only be an array, whatever the fallback returns is an array: a
    non-array result can only come from the direct parse. *)
Theorem X21_the_fallback_returns_arrays_only (text : jsstring)
    (count : option Z) (responseText : jsstring) (v : value) :
  (forall s parsed, reader (open_bracket :: s) = Some parsed ->
                    isArray parsed = true) ->
  generateContent (prompt (default 5 count) text) = Ok responseText ->
  reader responseText = None ->
  generateQuestionsFromText reader generateContent text count = Ok v ->
  isArray v = true.
Proof.
  intros Hreader Hgen Hdirect.
  rewrite (GeminiFacts.generateQuestionsFromText_response _ _ _ _ _ Hgen).
  rewrite (GeminiFacts.parseResponse_fallback _ _ Hdirect).
  destruct (match_array responseText) as [m|] eqn:Hm; [|done].
  destruct (GeminiFacts.match_array_inv _ _ Hm)
    as (pre & mid & post & _ & -> & _).
  unfold JSON_parse, try_catch. simpl.
  destruct (reader (open_bracket :: mid ++ [close_bracket])) as [parsed|]
    eqn:E; [|done].
  intros [= <-]. by apply Hreader in E.
Qed.

End Callers.

(** X21, witness: the announced array of the samples. *)
Lemma X21_announced_response_gives_an_array :
  match
    generateQuestionsFromText Json.parse (Samples.answers Samples.announced)
      (js "Photosynthesis") (Some 3)
  with
  | Ok v => isArray v = true
  | Throw _ => False
  end.
Proof.
  destruct (generateQuestionsFromText Json.parse
              (Samples.answers Samples.announced) (js "Photosynthesis")
              (Some 3)) as [v|e] eqn:E; [|by vm_compute in E].
  apply (X21_the_fallback_returns_arrays_only Json.parse
           (Samples.answers Samples.announced) (js "Photosynthesis")
           (Some 3) Samples.announced v).
  - apply Json_parse_bracket.
  - reflexivity.
  - by vm_compute.
  - exact E.
Defined.

End GeminiEdgeFacts.

(** ** The picker's lists: what is available, what the search shows *)

Module PickerFacts.
Import JS QuestionSelection.

Lemma startsWith_spec (sub s : jsstring) :
  startsWith sub s = true <-> exists post, s = sub ++ post.
Proof.
  revert s. induction sub as [|a sub IH]; intros s; simpl.
  - split; [by exists s|done].
  - destruct s as [|c s]; [split; [done|by intros [? ?]]|].
    rewrite andb_true_iff, N.eqb_eq, IH. split.
    + intros [-> [post ->]]. by exists post.
    + intros [post [= -> ->]]. split; [done|by exists post].
Qed.

(** [includes] is the test for a run of code units. *)
Lemma includes_spec (s sub : jsstring) :
  includes s sub = true <-> exists pre post, s = pre ++ sub ++ post.
Proof.
  induction s as [|c s IH]; simpl.
  - rewrite orb_false_r, startsWith_spec. split.
    + intros [post H]. by exists [], post.
    + intros (pre & post & H). destruct pre; [by exists post|done].
  - rewrite orb_true_iff, startsWith_spec, IH. split.
    + intros [[post H]|(pre & post & ->)]; [by exists [], post|].
      by exists (c :: pre), post.
    + intros ([|d pre] & post & H); [left; by exists post|].
      right. injection H as -> ->. by exists pre, post.
Qed.

(** X22: with nothing selected every question of the pool is available;
    the available list is empty exactly when every question of the pool
    has the id of a selected one. *)
Theorem X22_available_at_the_two_ends (questions selected : list Question) :
  availableQuestions questions [] = questions
  /\ (availableQuestions questions selected = []
      <-> forall q, q ∈ questions ->
                    exists p, p ∈ selected /\ id p = id q).
Proof.
  unfold availableQuestions. split.
  - induction questions as [|q questions IH]; [done|].
    rewrite filter_cons_True; [by rewrite IH|].
    unfold selectedIds. simpl. apply not_elem_of_empty.
  - split.
    + intros Hnil q Hq.
      apply QuestionSelectionFacts.elem_of_selectedIds.
      destruct (decide (id q ∈ selectedIds selected)) as [|Hno]; [done|].
      by destruct (filter_nil_not_elem_of _ _ q Hnil Hno).
    + intros Hall. induction questions as [|q questions IH]; [done|].
      rewrite filter_cons_False.
      * apply IH. intros p Hp. apply Hall. apply elem_of_cons. by right.
      * intros Hno. apply Hno. apply QuestionSelectionFacts.elem_of_selectedIds.
        apply Hall. apply elem_of_cons. by left.
Qed.

(** X23: the available questions are the questions of the pool in the
    order of the pool, the selected ones taken out: a sublist, and the
    lengths of the available and of the taken out add up to the pool's. *)
Theorem X23_available_keeps_the_order_of_the_pool
    (questions selected : list Question) :
  availableQuestions questions selected `sublist_of` questions
  /\ (length (availableQuestions questions selected)
      + length (filter (fun q => id q ∈ selectedIds selected) questions)
      = length questions)%nat.
Proof.
  unfold availableQuestions. split; [apply sublist_filter|].
  induction questions as [|q questions IH]; [done|].
  rewrite !filter_cons.
  destruct (decide (id q ∈ selectedIds selected)) as [Hin|Hno].
  - rewrite decide_False by (intros H; by apply H).
    cbn [length]. lia.
  - rewrite decide_True by done. cbn [length]. lia.
Qed.

Section Search.

Variable toLowerCase : jsstring -> jsstring.

(** X24: whatever the query, a question is listed under the search box
    exactly when it is in the pool, no selected question has its id, and
    its text in lower case holds the query in lower case as a run of
    code units; the listed questions keep the order of the pool. *)
Theorem X24_search_shows_matching_unselected_questions
    (questions selected : list Question) (searchQuery : jsstring)
    (q : Question) :
  (q ∈ filteredQuestions toLowerCase
         (availableQuestions questions selected) searchQuery
   <-> q ∈ questions
       /\ (forall p, p ∈ selected -> id p <> id q)
       /\ exists pre post,
            toLowerCase (text q) = pre ++ toLowerCase searchQuery ++ post)
  /\ filteredQuestions toLowerCase
       (availableQuestions questions selected) searchQuery
     `sublist_of` questions.
Proof.
  unfold filteredQuestions. split.
  - rewrite list_elem_of_filter,
      QuestionSelectionFacts.elem_of_availableQuestions.
    rewrite <- includes_spec. rewrite Is_true_true. tauto.
  - etrans; apply sublist_filter.
Qed.

(** X25: an empty query hides nothing: every available question is
    listed, as [toLowerCase] gives the empty string for the empty
    string. *)
Theorem X25_empty_query_lists_every_available_question
    (available : list Question) :
  toLowerCase [] = [] ->
  filteredQuestions toLowerCase available [] = available.
Proof.
  intros Hempty. unfold filteredQuestions. rewrite Hempty.
  induction available as [|q available IH]; [done|].
  rewrite filter_cons_True; [by rewrite IH|].
  apply Is_true_true, includes_spec. by exists [], (toLowerCase (text q)).
Qed.

End Search.

(** X25, witness: the sample pool with its second question selected. *)
Lemma X25_empty_query_on_the_sample_pool :
  filteredQuestions Samples.lower
    (availableQuestions Samples.bank Samples.chosen) []
  = availableQuestions Samples.bank Samples.chosen.
Proof.
  apply (X25_empty_query_lists_every_available_question Samples.lower
           (availableQuestions Samples.bank Samples.chosen)).
  reflexivity.
Defined.

End PickerFacts.
